(** * whatsapp-web-poc-bot: command parsing, dispatch, scanning and session

    A shallow embedding of the bot's Python sources ([bot/filters.py],
    [bot/handlers.py], [bot/chat.py], [bot/session.py], [main.py]) together
    with the properties the design document states about them.

    Conventions.
    - A Python [str] is a [string]; a character is read as a code point
      below 256, so the whitespace set and the case mapping are the ones
      Python uses on that range.
    - A [dict] is a [gmap], a [set] a [gset].
    - A call that may raise returns an [outcome]; [try]/[except] is a match
      on it.  Calls to the logger only write to stderr and are left out. *)

From Stdlib Require Import Ascii String NArith ZArith Lia.
From stdpp Require Import base option list strings gmap sorting pretty.

Open Scope string_scope.

(** ** Exceptions and outcomes *)

(** The text of a [RuntimeError].  The one f-string among them,
    [f"Login timed out after {poll_count} polls in {self._login_timeout}s"],
    is kept as the two values it prints. *)
Inductive message : Type :=
| Literal (s : string)
| LoginTimedOut (poll_count : nat) (login_timeout : Z).

(** The exception classes the sources raise or catch.  Every one of them is
    a subclass of [Exception]; [PlaywrightTimeoutError] is the only one the
    sources catch by name. *)
Inductive exn : Type :=
| PlaywrightTimeoutError (msg : string)
| PlaywrightError (msg : string)
| IndexError
| KeyError (key : string)
| ValueError (msg : string)
| RuntimeError (msg : message).

Definition is_timeout (e : exn) : bool :=
  match e with PlaywrightTimeoutError _ => true | _ => false end.

Inductive outcome (A : Type) : Type :=
| Ok (a : A)
| Raise (e : exn).
Arguments Ok {A} a.
Arguments Raise {A} e.

Definition bind_outcome {A B} (m : outcome A) (k : A -> outcome B) : outcome B :=
  match m with Ok a => k a | Raise e => Raise e end.

(** A line feed, the ["\n"] of the sources. *)
Definition nl : string := String "010" "".

(** ** Python string primitives *)

Module PyStr.

(** [str.isspace] on one character: U+0009..U+000D, U+001C..U+001F,
    U+0020, U+0085 and U+00A0. *)
Definition isspace (c : ascii) : bool :=
  match c with
  | "009" | "010" | "011" | "012" | "013"
  | "028" | "029" | "030" | "031" | " " | "133" | "160" => true
  | _ => false
  end%char.

(** [str.lower] on one character: A..Z and the capital letters
    U+00C0..U+00DE (the multiplication sign U+00D7 apart) move up by 32. *)
Definition lower_char (c : ascii) : ascii :=
  let n := N_of_ascii c in
  if ((65 <=? n) && (n <=? 90)
      || (192 <=? n) && (n <=? 222) && negb (n =? 215))%N
  then ascii_of_N (n + 32) else c.

Fixpoint lower (s : string) : string :=
  match s with
  | "" => ""
  | String c s' => String (lower_char c) (lower s')
  end.

Definition is_empty (s : string) : bool :=
  match s with "" => true | _ => false end.

(** [s.startswith(p)] *)
Fixpoint startswith (p s : string) : bool :=
  match p with
  | "" => true
  | String a p' =>
      match s with
      | "" => false
      | String b s' => Ascii.eqb a b && startswith p' s'
      end
  end.

(** [s[n:]] *)
Fixpoint slice_from (n : nat) (s : string) : string :=
  match n with
  | O => s
  | S n' => match s with "" => "" | String _ s' => slice_from n' s' end
  end.

Fixpoint lstrip (s : string) : string :=
  match s with
  | "" => ""
  | String c s' => if isspace c then lstrip s' else s
  end.

Fixpoint rstrip (s : string) : string :=
  match s with
  | "" => ""
  | String c s' =>
      let r := rstrip s' in
      if isspace c && is_empty r then "" else String c r
  end.

(** [s.strip()] *)
Definition strip (s : string) : string := rstrip (lstrip s).

(** [s.split()]: a left-to-right scan; [cur] is the word being read. *)
Fixpoint split_go (cur : string) (s : string) : list string :=
  match s with
  | "" => if is_empty cur then [] else [cur]
  | String c s' =>
      if isspace c
      then (if is_empty cur then split_go "" s' else cur :: split_go "" s')
      else split_go (cur +:+ String c "") s'
  end.

Definition split (s : string) : list string := split_go "" s.

(** [sub in s] *)
Fixpoint contains (sub s : string) : bool :=
  startswith sub s
  || match s with "" => false | String _ s' => contains sub s' end.

(** [sep.join(l)] *)
Fixpoint join (sep : string) (l : list string) : string :=
  match l with
  | [] => ""
  | [x] => x
  | x :: l' => x +:+ sep +:+ join sep l'
  end.

End PyStr.

(** ** bot/chat.py: the message record *)

Record ChatMessage : Type := mkChatMessage {
  text : string;
  chat_name : string;
  sender : option string;
  from_me : bool
}.

(** [ChatMessage(text=text, from_me=from_me)] *)
Definition ChatMessage_new (t : string) (fm : bool) : ChatMessage :=
  {| text := t; chat_name := ""; sender := None; from_me := fm |}.

(** ** The page, as the sources use it

    A Playwright locator is a description of how to find elements; building
    one never touches the page. *)
Inductive Locator : Type :=
| PageLocator (selector : string)                      (* page.locator(sel) *)
| SubLocator (parent : Locator) (selector : string)    (* loc.locator(sel) *)
| First (l : Locator)                                  (* loc.first *)
| Nth (l : Locator) (index : nat).                     (* loc.nth(i) *)

(** The operations the sources call on the page and on the clock, over an
    arbitrary state [World] of browser and clock.  Queries read the state,
    actions may change it, also when they raise.  Durations and clock
    readings are in milliseconds. *)
Record Page (World : Type) : Type := {
  count : Locator -> World -> outcome nat;
  get_attribute : Locator -> string -> World -> outcome (option string);
  inner_text : Locator -> World -> outcome string;
  click : Locator -> World -> outcome unit * World;
  locator_evaluate : Locator -> string -> World -> outcome unit * World;
  evaluate : string -> World -> outcome unit * World;
  wait_for_selector : string -> Z -> World -> outcome unit * World;
  bring_to_front : World -> outcome unit * World;
  time : World -> Z;
  sleep : Z -> World -> World
}.
Arguments count {World} _ _ _.
Arguments get_attribute {World} _ _ _ _.
Arguments inner_text {World} _ _ _.
Arguments click {World} _ _ _.
Arguments locator_evaluate {World} _ _ _ _.
Arguments evaluate {World} _ _ _.
Arguments wait_for_selector {World} _ _ _ _.
Arguments bring_to_front {World} _ _.
Arguments time {World} _ _.
Arguments sleep {World} _ _ _.

(** Code that threads a state and may raise; the state at the point of a
    raise is kept. *)
Definition SE (S A : Type) : Type := S -> outcome A * S.

Definition ret {S A : Type} (a : A) : SE S A := fun s => (Ok a, s).

Definition bind {S A B : Type} (m : SE S A) (k : A -> SE S B) : SE S B :=
  fun s => match m s with
           | (Ok a, s') => k a s'
           | (Raise e, s') => (Raise e, s')
           end.

(** [try: m  except <catches>: handler] *)
Definition try_except {S A : Type} (m : SE S A) (catches : exn -> bool)
    (handler : exn -> SE S A) : SE S A :=
  fun s => match m s with
           | (Ok a, s') => (Ok a, s')
           | (Raise e, s') => if catches e then handler e s' else (Raise e, s')
           end.

Definition query {S A : Type} (q : S -> outcome A) : SE S A :=
  fun s => (q s, s).

(** [time.sleep(d)]: a negative length is a [ValueError]. *)
Definition time_sleep {World : Type} (page : Page World) (d : Z) : SE World unit :=
  fun w =>
    if (d <? 0)%Z then (Raise (ValueError "sleep length must be non-negative"), w)
    else (Ok tt, sleep page d w).

Declare Scope se_scope.
Delimit Scope se_scope with se.
Notation "x <- m ;; k" := (bind m (fun x => k))
  (at level 100, m at next level, right associativity) : se_scope.
Notation "m ;;; k" := (bind m (fun _ => k))
  (at level 100, right associativity) : se_scope.

(** ** bot/chat.py *)

Module Chat.
Import PyStr.

Definition UNREAD_CHAT_SELECTOR : string :=
  "div[role='row']:has(span[aria-label*='mensaje no le" +:+ String "237"
  "do']), div[role='row']:has(span[aria-label*='unread message'])".
Definition LAST_MESSAGE_TEXT : string :=
  "div[role='region'][aria-label*='mensaje'], div[role='region'][aria-label*='message']".
Definition conversation_selector : string :=
  "main#main, #main, [role='main'], main".
Definition bubble_selector : string :=
  "div.message-in, div.message-out, div[data-testid='msg-container']".
Definition text_selectors : list string :=
  [ "span.selectable-text";
    "span[data-testid='selectable-text']";
    "span.copyable-text";
    "span[data-lexical-text]" ].
Definition any_bubble_selector : string :=
  "div.message-in span.selectable-text, div.message-out span.selectable-text, span[data-lexical-text]".

Record ChatService : Type := {
  _simulation_mode : bool;
  _read_timeout : Z;
  _last_seen : gmap string string
}.

(** [ChatService.__init__], with the default [read_timeout] of one second. *)
Definition ChatService_init (simulation_mode : bool) : ChatService :=
  {| _simulation_mode := simulation_mode;
     _read_timeout := 1000;
     _last_seen := ∅ |}.

(** [ChatService._push_if_new], on the cache and the bucket it mutates. *)
Definition _push_if_new (last_seen : gmap string string)
    (bucket : list ChatMessage) (text : string) (from_me : bool)
  : gmap string string * list ChatMessage :=
  if decide (last_seen !! "last" = Some text) then (last_seen, bucket)
  else (<["last" := text]> last_seen,
        (bucket ++ [ChatMessage_new text from_me])%list).

(** What one poll cycle works on: the page, [self._last_seen] and the
    list [messages] the cycle fills. *)
Record Cycle (World : Type) : Type := {
  page_state : World;
  last_seen : gmap string string;
  messages : list ChatMessage
}.
Arguments page_state {World} _.
Arguments last_seen {World} _.
Arguments messages {World} _.

Section WithPage.
Context {World : Type} (page : Page World).

(** The test of one text selector inside the last bubble: the body of the
    [for ts in text_selectors] loop.  [Ok (Some text)] is the [return]. *)
Definition text_candidate (last_bubble : Locator) (w : World) (ts : string)
  : outcome (option string) :=
  let text_el := First (SubLocator last_bubble ts) in
  bind_outcome (count page text_el w) (fun n =>
    if (0 <? n)%nat then
      bind_outcome (inner_text page text_el w) (fun raw =>
        let text := strip raw in
        if negb (is_empty text) && (1 <? String.length text)%nat
        then Ok (Some text) else Ok None)
    else Ok None).

Fixpoint scan_text_selectors (last_bubble : Locator) (is_from_me : bool)
    (selectors : list string) (w : World) : outcome (option (string * bool)) :=
  match selectors with
  | [] => Ok None
  | ts :: rest =>
      match text_candidate last_bubble w ts with
      | Raise e => Raise e
      | Ok (Some text) => Ok (Some (text, is_from_me))
      | Ok None => scan_text_selectors last_bubble is_from_me rest w
      end
  end.

(** The container of the conversation, with its fallback.  A locator
    object is always truthy, so [not container] never holds. *)
Definition resolve_container (w : World) : outcome (option Locator) :=
  let container := First (PageLocator conversation_selector) in
  bind_outcome (count page container w) (fun n =>
    if (n =? 0)%nat then
      let container := First (PageLocator LAST_MESSAGE_TEXT) in
      bind_outcome (count page container w) (fun n' =>
        if (n' =? 0)%nat then Ok None else Ok (Some container))
    else Ok (Some container)).

(** The inner [try: ... except: pass] that scrolls the list to its end. *)
Definition scroll_to_bottom (w : World) : World :=
  let scrollable :=
    First (PageLocator (LAST_MESSAGE_TEXT +:+ ", div.copyable-area")) in
  match count page scrollable w with
  | Ok n =>
      if (0 <? n)%nat
      then snd (locator_evaluate page scrollable
                  "el => el.scrollTop = el.scrollHeight" w)
      else w
  | Raise _ => w
  end.

(** The bubbles of a container, read once the list is scrolled. *)
Definition read_last_bubble (container : Locator) (w : World)
  : outcome (option (string * bool)) :=
  let bubbles := SubLocator container bubble_selector in
  bind_outcome (count page bubbles w) (fun cnt =>
    if (cnt =? 0)%nat then Ok None
    else
      let last_bubble := Nth bubbles (cnt - 1) in
      bind_outcome (get_attribute page last_bubble "class" w) (fun cls =>
        let html_class := default "" cls in
        let is_from_me := contains "message-out" html_class in
        scan_text_selectors last_bubble is_from_me text_selectors w)).

(** The body of the [try] of [_last_message_text]. *)
Definition last_message_text_try : SE World (option (string * bool)) :=
  fun w =>
    match resolve_container w with
    | Raise e => (Raise e, w)
    | Ok None => (Ok None, w)
    | Ok (Some container) =>
        let w' := scroll_to_bottom w in
        (read_last_bubble container w', w')
    end.

(** [ChatService._last_message_text]: after [except Exception] the
    function falls through to its final [return None]. *)
Definition _last_message_text : SE World (option (string * bool)) :=
  try_except last_message_text_try (fun _ => true) (fun _ => ret None).

(** [Locator.all()]: [nth(0)], ..., [nth(count - 1)]. *)
Definition all (l : Locator) (w : World) : outcome (list Locator) :=
  bind_outcome (count page l w) (fun n => Ok (Nth l <$> seq 0 n)).

(** [ChatService._collect_unread_chats] *)
Definition _collect_unread_chats : SE World (list Locator) :=
  try_except
    (wait_for_selector page UNREAD_CHAT_SELECTOR 2000 ;;;
     query (all (PageLocator UNREAD_CHAT_SELECTOR)))%se
    is_timeout (fun _ => ret []).

(** Running page code inside a cycle. *)
Definition on_page {A : Type} (m : SE World A) : SE (Cycle World) A :=
  fun c =>
    let (r, w') := m (page_state c) in
    (r, {| page_state := w'; last_seen := last_seen c;
           messages := messages c |}).

(** [self._push_if_new(messages, text, from_me=from_me)] inside a cycle. *)
Definition push_if_new (text : string) (from_me : bool) : SE (Cycle World) unit :=
  fun c =>
    let (seen, bucket) := _push_if_new (last_seen c) (messages c) text from_me in
    (Ok tt, {| page_state := page_state c; last_seen := seen;
               messages := bucket |}).

(** [ChatService._collect_active_chat_message] *)
Definition _collect_active_chat_message : SE (Cycle World) unit :=
  (result <- on_page _last_message_text ;;
   match result with
   | None => ret tt
   | Some (text, from_me) => push_if_new text from_me
   end)%se.

(** The body of the [try] that handles one unread chat. *)
Definition process_chat (self : ChatService) (chat : Locator)
  : SE (Cycle World) unit :=
  (on_page (click page chat) ;;;
   on_page (try_except
              (evaluate page "window.scrollTo(0, document.body.scrollHeight)")
              (fun _ => true) (fun _ => ret tt)) ;;;
   on_page (time_sleep page (_read_timeout self)) ;;;
   on_page (try_except (wait_for_selector page any_bubble_selector 5000)
              is_timeout (fun _ => ret tt)) ;;;
   on_page (query (count page (PageLocator "div.message-in span.selectable-text"))) ;;;
   on_page (query (count page (PageLocator "div.message-out span.selectable-text"))) ;;;
   on_page (query (count page (PageLocator "span[data-lexical-text]"))) ;;;
   result <- on_page _last_message_text ;;
   match result with
   | None => ret tt
   | Some (text, from_me) => push_if_new text from_me
   end)%se.

(** The [for] loop over the unread chats, with its [except Exception]. *)
Fixpoint for_each_chat (self : ChatService) (unread_chats : list Locator)
    (c : Cycle World) : Cycle World :=
  match unread_chats with
  | [] => c
  | chat :: rest =>
      match process_chat self chat c with
      | (Ok _, c') => for_each_chat self rest c'
      | (Raise _, c') => for_each_chat self rest c'
      end
  end.

Definition is_nil {A : Type} (l : list A) : bool :=
  match l with [] => true | _ => false end.

(** [ChatService.poll_new_messages]: the messages of the cycle, the
    service with its cache as the cycle left it, and the page. *)
Definition poll_new_messages (self : ChatService) (w : World)
  : outcome (list ChatMessage) * (ChatService * World) :=
  let finish (r : outcome unit * Cycle World) :=
    let self' := {| _simulation_mode := _simulation_mode self;
                    _read_timeout := _read_timeout self;
                    _last_seen := last_seen (snd r) |} in
    (match fst r with
     | Ok _ => Ok (messages (snd r))
     | Raise e => Raise e
     end, (self', page_state (snd r))) in
  match _collect_unread_chats w with
  | (Raise e, w1) => (Raise e, (self, w1))
  | (Ok unread_chats, w1) =>
      let c := {| page_state := w1; last_seen := _last_seen self;
                  messages := [] |} in
      if is_nil unread_chats
      then finish (_collect_active_chat_message c)
      else finish (_collect_active_chat_message
                     (for_each_chat self unread_chats c))
  end.

(** The cache and the bucket of [c'] are those of [c]. *)
Definition untouched (c c' : Cycle World) : Prop :=
  last_seen c' = last_seen c /\ messages c' = messages c.

(** [c'] is [c] after one [_last_message_text] on some page state [wr]
    and, when it read a text, one [_push_if_new] of it. *)
Definition read_and_pushed (c c' : Cycle World) : Prop :=
  exists wr : World,
    page_state c' = (_last_message_text wr).2
    /\ (last_seen c', messages c')
       = match (_last_message_text wr).1 with
         | Ok (Some (text, from_me)) =>
             _push_if_new (last_seen c) (messages c) text from_me
         | _ => (last_seen c, messages c)
         end.

(** How the handling of one chat may end. *)
Definition chat_post (m : SE (Cycle World) unit) : Prop :=
  forall c : Cycle World,
    match m c with
    | (Raise _, c') => untouched c c'
    | (Ok _, c') => read_and_pushed c c'
    end.

End WithPage.

(** Reads fed to the cache one after the other, into one bucket. *)
Definition feed (last_seen : gmap string string) (bucket : list ChatMessage)
    (reads : list (string * bool)) : gmap string string * list ChatMessage :=
  foldl (fun st r => _push_if_new st.1 st.2 r.1 r.2) (last_seen, bucket) reads.

(** The successful reads of several cycles: every cycle starts with an
    empty bucket, the cache lives on.  The result is the final cache and
    what each cycle forwarded. *)
Fixpoint feed_cycles (last_seen : gmap string string)
    (cycles : list (list (string * bool)))
  : gmap string string * list (list ChatMessage) :=
  match cycles with
  | [] => (last_seen, [])
  | reads :: rest =>
      let (seen, bucket) := feed last_seen [] reads in
      let (seen', buckets) := feed_cycles seen rest in
      (seen', bucket :: buckets)
  end.

(** The read texts without their immediate repeats; [prev] is the text
    before the first of them, if any. *)
Fixpoint drop_repeats (prev : option string) (reads : list string) : list string :=
  match reads with
  | [] => []
  | t :: rest =>
      if decide (prev = Some t) then drop_repeats prev rest
      else t :: drop_repeats (Some t) rest
  end.

End Chat.

(** ** A scripted page for the examples

    Its state is the number of chats opened so far.  Two chats are flagged
    unread; opening the first one fails, the last bubble of any chat opened
    reads " /bot hola ", and before any chat is opened it shows only a
    one-character glyph.  Waiting for a selector succeeds at once, and the
    script run on the page fails (which the scan ignores). *)

Module Demo.

Definition demo_count (l : Locator) (w : nat) : outcome nat :=
  match l with
  | First _ => Ok 1
  | _ => Ok 2
  end.

Definition demo_inner_text (l : Locator) (w : nat) : outcome string :=
  match w with
  | O => Ok ":"
  | S _ => Ok " /bot hola "
  end.

Definition demo_click (l : Locator) (w : nat) : outcome unit * nat :=
  match l with
  | Nth _ O => (Raise (PlaywrightError "element is detached"), w)
  | _ => (Ok tt, S w)
  end.

Definition demo_page : Page nat := {|
  count := demo_count;
  get_attribute := fun _ _ _ => Ok (Some "message-in focusable-list-item");
  inner_text := demo_inner_text;
  click := demo_click;
  locator_evaluate := fun _ _ w => (Ok tt, w);
  evaluate := fun _ w => (Raise (PlaywrightError "execution context destroyed"), w);
  wait_for_selector := fun _ _ w => (Ok tt, w);
  bring_to_front := fun w => (Ok tt, w);
  time := fun _ => 0%Z;
  sleep := fun _ w => w
|}.

(** A page on which no marker ever appears: the state is the clock, a
    probe raises its timeout error once its whole timeout has run, and a
    sleep lasts as long as asked. *)
Definition clock_page : Page Z := {|
  count := fun _ _ => Ok 0;
  get_attribute := fun _ _ _ => Ok None;
  inner_text := fun _ _ => Ok "";
  click := fun _ w => (Ok tt, w);
  locator_evaluate := fun _ _ w => (Ok tt, w);
  evaluate := fun _ w => (Ok tt, w);
  wait_for_selector := fun _ timeout w =>
    (Raise (PlaywrightTimeoutError "Timeout exceeded."), (w + timeout)%Z);
  bring_to_front := fun w => (Ok tt, w);
  time := fun w => w;
  sleep := fun d w => (w + d)%Z
|}.

End Demo.

(** ** bot/session.py *)

Module Session.

Definition CHAT_LIST_READY_SELECTOR : string := "div[id='pane-side']".
Definition QR_CODE_SELECTOR : string := "canvas[aria-label*='Scan']".

Record SessionManager : Type := {
  _poll_interval : Z;
  _login_timeout : Z
}.

(** [SessionManager(page)], with the defaults of two seconds and two
    minutes. *)
Definition SessionManager_init : SessionManager :=
  {| _poll_interval := 2000; _login_timeout := 120000 |}.

Section WithPage.
Context {World : Type} (page : Page World).

(** [SessionManager.is_logged_in] *)
Definition is_logged_in : SE World bool :=
  try_except
    (wait_for_selector page CHAT_LIST_READY_SELECTOR 3000 ;;; ret true)%se
    is_timeout (fun _ => ret false).

(** [SessionManager._qr_visible] *)
Definition _qr_visible : SE World bool :=
  try_except
    (wait_for_selector page QR_CODE_SELECTOR 1000 ;;; ret true)%se
    is_timeout (fun _ => ret false).

(** The [while time.time() < deadline] loop of [_wait_for_login], run for
    at most [fuel] tests of its condition; [None] when that many tests
    did not end it. *)
Fixpoint wait_for_login_loop (fuel : nat) (self : SessionManager)
    (deadline : Z) (poll_count : nat) (w : World)
  : option (outcome unit * World) :=
  match fuel with
  | O => None
  | S fuel' =>
      if (time page w <? deadline)%Z then
        let poll_count := S poll_count in
        match is_logged_in w with
        | (Raise e, w1) => Some (Raise e, w1)
        | (Ok true, w1) => Some (Ok tt, w1)
        | (Ok false, w1) =>
            match _qr_visible w1 with
            | (Raise e, w2) => Some (Raise e, w2)
            | (Ok _, w2) =>
                match time_sleep page (_poll_interval self) w2 with
                | (Raise e, w3) => Some (Raise e, w3)
                | (Ok _, w3) =>
                    wait_for_login_loop fuel' self deadline poll_count w3
                end
            end
        end
      else
        Some (Raise (RuntimeError
                       (LoginTimedOut poll_count (_login_timeout self))), w)
  end.

(** [SessionManager._wait_for_login] *)
Definition _wait_for_login (fuel : nat) (self : SessionManager) (w : World)
  : option (outcome unit * World) :=
  let deadline := (time page w + _login_timeout self)%Z in
  wait_for_login_loop fuel self deadline 0 w.

(** [SessionManager.ensure_session] *)
Definition ensure_session (fuel : nat) (self : SessionManager) (w : World)
  : option (outcome unit * World) :=
  match bring_to_front page w with
  | (Raise e, w1) => Some (Raise e, w1)
  | (Ok _, w1) =>
      match _wait_for_login fuel self w1 with
      | None => None
      | Some (Raise e, w2) => Some (Raise e, w2)
      | Some (Ok _, w2) =>
          match is_logged_in w2 with
          | (Raise e, w3) => Some (Raise e, w3)
          | (Ok true, w3) => Some (Ok tt, w3)
          | (Ok false, w3) =>
              Some (Raise (RuntimeError
                             (Literal "Failed to establish WhatsApp Web session")),
                    w3)
          end
      end
  end.

End WithPage.

End Session.

(** ** main.py: the AI query path *)

Module Main.
Import PyStr.

(** What a call of [ai_client.models.generate_content] comes to: a
    response with its [text], or an exception [e], kept as [str(e)]. *)
Inductive completion : Type :=
| Completed (text : option string)
| Failed (error_text : string).

(** The client built in [run_bot]: none without a key (or with an empty
    one), else a client holding the key. *)
Definition make_ai_client (google_api_key : option string) : option string :=
  match google_api_key with
  | None => None
  | Some key => if is_empty key then None else Some key
  end.

Definition missing_key_reply : string :=
  "Error: AI client not configured (missing API key).".
Definition rate_limit_reply : string :=
  "Lo siento, he alcanzado mi l" +:+ String "237"
  ("mite de mensajes por ahora. Por favor, int" +:+ String "233"
   "ntalo de nuevo en unos segundos.").
Definition generic_error_reply (error_text : string) : string :=
  "Sorry, I encountered an error processing that: " +:+ error_text.

Section WithBackend.
Context {World : Type}.
(** The backend: client, model name and contents to a completion. *)
Context (generate_content :
           string -> string -> string -> World -> completion * World).

(** [call_ai], the closure of [run_bot]. *)
Definition call_ai (ai_client : option string) (query : string) (w : World)
  : outcome string * World :=
  match ai_client with
  | None => (Ok missing_key_reply, w)
  | Some client =>
      match generate_content client "gemini-2.5-flash-lite" query w with
      | (Completed text, w') =>
          (Ok (match text with
               | Some t => if is_empty t then "No response from AI." else t
               | None => "No response from AI."
               end), w')
      | (Failed error_text, w') =>
          if contains "429" error_text then (Ok rate_limit_reply, w')
          else (Ok (generic_error_reply error_text), w')
      end
  end.

End WithBackend.

End Main.

(** ** bot/filters.py *)

Module Filters.
Import PyStr.

Record ParsedCommand : Type := { name : string; args : list string }.

Record ParsedMessage : Type := {
  is_command : bool;
  command : option ParsedCommand;
  query : option string
}.

Record MessageFilter : Type := { _prefix : string }.

(** [MessageFilter.__init__] *)
Definition MessageFilter_init (prefix : string) : outcome MessageFilter :=
  if is_empty prefix
  then Raise (ValueError "Command prefix must not be empty")
  else Ok {| _prefix := prefix |}.

(** [MessageFilter.parse] *)
Definition parse (self : MessageFilter) (message : ChatMessage)
  : outcome (option ParsedMessage) :=
  if negb (startswith (_prefix self) (text message)) then Ok None
  else
    let payload :=
      strip (slice_from (String.length (_prefix self)) (text message)) in
    if is_empty payload then Ok None
    else
      let parts := split payload in
      match parts !! 0%nat with
      | None => Raise IndexError
      | Some first_word =>
          if startswith "-" first_word then
            let command_name := lower (slice_from 1 first_word) in
            let args := drop 1 parts in
            Ok (Some {| is_command := true;
                        command := Some {| name := command_name;
                                           args := args |};
                        query := None |})
          else
            Ok (Some {| is_command := false;
                        command := None;
                        query := Some payload |})
      end.

(** *** The parser as the design document words it *)

(** The tagged union of the data model. *)
Inductive Parsed : Type :=
| CommandVariant (name : string) (args : list string)
| QueryVariant (value : string).

(** "If the text does not start with the prefix, none; strip the prefix". *)
Fixpoint strip_prefix (p s : string) : option string :=
  match p, s with
  | "", _ => Some s
  | String _ _, "" => None
  | String a p', String b s' =>
      if Ascii.eqb a b then strip_prefix p' s' else None
  end.

Definition at_word_end (s : string) : bool :=
  match s with "" => true | String d _ => isspace d end.

(** "Split the remaining payload on whitespace into tokens": the maximal
    runs of non-whitespace characters, built from the right. *)
Fixpoint tokens (s : string) : list string :=
  match s with
  | "" => []
  | String c s' =>
      if isspace c then tokens s'
      else if at_word_end s' then String c "" :: tokens s'
      else match tokens s' with
           | t :: ts => String c t :: ts
           | [] => [String c ""]
           end
  end.

(** No character of [s] is whitespace. *)
Fixpoint blank_free (s : string) : bool :=
  match s with
  | "" => true
  | String c s' => negb (isspace c) && blank_free s'
  end.

(** [s] without its whitespace. *)
Fixpoint remove_blanks (s : string) : string :=
  match s with
  | "" => ""
  | String c s' => if isspace c then remove_blanks s' else String c (remove_blanks s')
  end.

Definition parse_reference (prefix txt : string) : option Parsed :=
  match strip_prefix prefix txt with
  | None => None
  | Some rest =>
      let payload := strip rest in
      match payload with
      | "" => None
      | _ =>
          match tokens payload with
          | String "-" nm :: rest_tokens =>
              Some (CommandVariant (lower nm) rest_tokens)
          | _ => Some (QueryVariant payload)
          end
      end
  end.

(** How a variant is laid out in the [ParsedMessage] record. *)
Definition to_message (p : Parsed) : ParsedMessage :=
  match p with
  | CommandVariant n a =>
      {| is_command := true;
         command := Some {| name := n; args := a |};
         query := None |}
  | QueryVariant q =>
      {| is_command := false; command := None; query := Some q |}
  end.

End Filters.

(** ** bot/handlers.py *)

Module Handlers.
Import PyStr.

Record CommandHandler : Type := {
  _prefix : string;
  _commands : gmap string string
}.

(** [CommandHandler.__init__] *)
Definition CommandHandler_init (prefix : string) : CommandHandler :=
  {| _prefix := prefix; _commands := {[ "ping" := "pong" ]} |}.

(** [sorted] on strings: code-point order. *)
Definition sorted (l : list string) : list string := merge_sort String.le l.

(** One line of the listing, [f"- {self._prefix} {name}"]. *)
Definition help_line (self : CommandHandler) (name : string) : string :=
  "- " +:+ _prefix self +:+ " " +:+ name.

(** [CommandHandler._help_message] *)
Definition _help_message (self : CommandHandler) : string :=
  let commands := sorted (elements (dom (_commands self) ∪ {[ "help" ]})) in
  let items := join nl (help_line self <$> commands) in
  "Available commands:" +:+ nl +:+ items.

(** [CommandHandler.handle] *)
Definition handle (self : CommandHandler) (command : Filters.ParsedCommand)
  : outcome string :=
  let name := Filters.name command in
  if decide (name = "help") then Ok (_help_message self)
  else if decide (name ∈ dom (_commands self)) then
    match _commands self !! name with
    | Some reply => Ok reply
    | None => Raise (KeyError name)
    end
  else Ok ("Unknown command '" +:+ name +:+ "'. Try '" +:+ _prefix self
           +:+ " help'.").

End Handlers.

(** ** Blank texts *)

Module Texts.

(** Every character of [s] is whitespace. *)
Fixpoint all_blank (s : string) : bool :=
  match s with
  | "" => true
  | String c s' => PyStr.isspace c && all_blank s'
  end.

(** A text as [_last_message_text] returns it: longer than one character
    and without a blank at either end. *)
Definition readable (t : string) : Prop :=
  1 < String.length t /\ PyStr.strip t = t.

(** A message as a poll cycle builds it: a readable text, no chat name and
    no sender. *)
Definition bare_message (m : ChatMessage) : Prop :=
  readable (text m) /\ chat_name m = "" /\ sender m = None.

(** The text of a command as a user types it: the prefix, a blank, the
    name after its "-", and the arguments, one blank between two words. *)
Definition command_text (prefix name : string) (args : list string) : string :=
  prefix +:+ " " +:+ PyStr.join " " (("-" +:+ name) :: args).

(** The text of a query: the prefix, a blank, the query. *)
Definition query_text (prefix q : string) : string := prefix +:+ " " +:+ q.

End Texts.

(** ** bot/chat.py: sending *)

Module Sender.
Import Chat.

Definition MESSAGE_INPUT_SELECTOR : string :=
  "div[contenteditable='true'][data-tab='10']".
Definition SEND_BUTTON_SELECTOR : string :=
  "button[aria-label*='Enviar'], button[aria-label*='Send'], span[data-testid='send']".

(** [page.wait_for_selector] with the element handle it returns, and the
    operations [send_message] calls on such handles. *)
Record Editor (World Element : Type) : Type := {
  wait_for_element : string -> Z -> World -> outcome Element * World;
  fill : Element -> string -> World -> outcome unit * World;
  type_text : Element -> string -> World -> outcome unit * World;
  press : Element -> string -> World -> outcome unit * World;
  click_element : Element -> World -> outcome unit * World
}.
Arguments wait_for_element {World Element} _ _ _ _.
Arguments fill {World Element} _ _ _ _.
Arguments type_text {World Element} _ _ _ _.
Arguments press {World Element} _ _ _ _.
Arguments click_element {World Element} _ _ _.

Section WithEditor.
Context {World Element : Type} (editor : Editor World Element).

(** [ChatService.send_message] *)
Definition send_message (self : ChatService) (text : string) : SE World bool :=
  fun w =>
    if _simulation_mode self then (Ok false, w)
    else
      match wait_for_element editor MESSAGE_INPUT_SELECTOR 5000 w with
      | (Raise e, w1) => if is_timeout e then (Ok false, w1) else (Raise e, w1)
      | (Ok input_box, w1) =>
          (fill editor input_box "" ;;;
           type_text editor input_box text ;;;
           try_except
             (send_button <- wait_for_element editor SEND_BUTTON_SELECTOR 2000 ;;
              click_element editor send_button)
             is_timeout (fun _ => press editor input_box "Enter") ;;;
           ret true)%se w1
      end.

End WithEditor.

End Sender.

(** ** bot/browser.py *)

Module Browser.

Definition WAPP_URL : string := "https://web.whatsapp.com".

(** A Playwright object (the driver, a browser, a context, a page). *)
Inductive handle : Type := Handle (id : nat).

(** [pathlib] and the Playwright calls of [BrowserManager], over a state
    [World] of processes and files. *)
Record Driver (World Path : Type) : Type := {
  make_path : string -> Path;                        (* Path(s) *)
  path_str : Path -> string;                         (* str(p) *)
  path_parent : Path -> Path;                        (* p.parent *)
  path_exists : Path -> World -> outcome bool;       (* p.exists() *)
  mkdir_parents : Path -> World -> outcome unit * World;
  playwright_start : World -> outcome handle * World;
  chromium_launch : handle -> bool -> Z -> World -> outcome handle * World;
  new_context : handle -> option string -> World -> outcome handle * World;
  new_page : handle -> World -> outcome handle * World;
  goto : handle -> string -> World -> outcome unit * World;
  storage_state : handle -> string -> World -> outcome unit * World;
  context_close : handle -> World -> outcome unit * World;
  browser_close : handle -> World -> outcome unit * World;
  playwright_stop : handle -> World -> outcome unit * World
}.
Arguments make_path {World Path} _ _.
Arguments path_str {World Path} _ _.
Arguments path_parent {World Path} _ _.
Arguments path_exists {World Path} _ _ _.
Arguments mkdir_parents {World Path} _ _ _.
Arguments playwright_start {World Path} _ _.
Arguments chromium_launch {World Path} _ _ _ _ _.
Arguments new_context {World Path} _ _ _ _.
Arguments new_page {World Path} _ _ _.
Arguments goto {World Path} _ _ _ _.
Arguments storage_state {World Path} _ _ _ _.
Arguments context_close {World Path} _ _ _.
Arguments browser_close {World Path} _ _ _.
Arguments playwright_stop {World Path} _ _ _.

Record BrowserManager (Path : Type) : Type := {
  _session_path : option Path;
  _headless : bool;
  _slow_mo : Z;
  _playwright : option handle;
  browser : option handle;
  context : option handle;
  page : option handle
}.
Arguments _session_path {Path} _.
Arguments _headless {Path} _.
Arguments _slow_mo {Path} _.
Arguments _playwright {Path} _.
Arguments browser {Path} _.
Arguments context {Path} _.
Arguments page {Path} _.

(** [try: m  finally: fin]: [fin] runs whatever [m] did; what it raises
    takes the place of the outcome of [m]. *)
Definition try_finally {S A : Type} (m : SE S A) (fin : SE S unit) : SE S A :=
  fun s =>
    let (r, s1) := m s in
    match fin s1 with
    | (Ok _, s2) => (r, s2)
    | (Raise e, s2) => (Raise e, s2)
    end.

(** [if obj: step(obj)] *)
Definition when_set {S : Type} (obj : option handle) (step : handle -> SE S unit)
  : SE S unit :=
  match obj with
  | Some h => step h
  | None => ret tt
  end.

Section WithDriver.
Context {World Path : Type} (driver : Driver World Path).

(** [BrowserManager.__init__] *)
Definition BrowserManager_init (session_path : option string) (headless : bool)
    (slow_mo : Z) : BrowserManager Path :=
  {| _session_path :=
       match session_path with
       | Some p => if PyStr.is_empty p then None else Some (make_path driver p)
       | None => None
       end;
     _headless := headless; _slow_mo := slow_mo;
     _playwright := None; browser := None; context := None; page := None |}.

(** [BrowserManager._start]; the manager keeps what was set before a
    raise. *)
Definition _start : SE (BrowserManager Path * World) unit :=
  fun '(self, w) =>
    match playwright_start driver w with
    | (Raise e, w1) => (Raise e, (self, w1))
    | (Ok pw, w1) =>
        let self1 := {| _session_path := _session_path self;
                        _headless := _headless self; _slow_mo := _slow_mo self;
                        _playwright := Some pw; browser := browser self;
                        context := context self; page := page self |} in
        match chromium_launch driver pw (_headless self) (_slow_mo self) w1 with
        | (Raise e, w2) => (Raise e, (self1, w2))
        | (Ok br, w2) =>
            let self2 := {| _session_path := _session_path self;
                            _headless := _headless self; _slow_mo := _slow_mo self;
                            _playwright := Some pw; browser := Some br;
                            context := context self; page := page self |} in
            let chosen : outcome (option string) :=
              match _session_path self with
              | Some p =>
                  match path_exists driver p w2 with
                  | Ok true => Ok (Some (path_str driver p))
                  | Ok false => Ok None
                  | Raise e => Raise e
                  end
              | None => Ok None
              end in
            match chosen with
            | Raise e => (Raise e, (self2, w2))
            | Ok state =>
                match new_context driver br state w2 with
                | (Raise e, w3) => (Raise e, (self2, w3))
                | (Ok ctx, w3) =>
                    let self3 := {| _session_path := _session_path self;
                                    _headless := _headless self;
                                    _slow_mo := _slow_mo self;
                                    _playwright := Some pw; browser := Some br;
                                    context := Some ctx; page := page self |} in
                    match new_page driver ctx w3 with
                    | (Raise e, w4) => (Raise e, (self3, w4))
                    | (Ok pg, w4) =>
                        (Ok tt,
                         ({| _session_path := _session_path self;
                             _headless := _headless self;
                             _slow_mo := _slow_mo self;
                             _playwright := Some pw; browser := Some br;
                             context := Some ctx; page := Some pg |}, w4))
                    end
                end
            end
        end
    end.

(** [BrowserManager.goto_whatsapp] *)
Definition goto_whatsapp (self : BrowserManager Path) : SE World handle :=
  match page self with
  | None => fun w => (Raise (RuntimeError (Literal "Browser page not initialized")), w)
  | Some pg => (goto driver pg WAPP_URL ;;; ret pg)%se
  end.

(** [BrowserManager.save_storage_state] *)
Definition save_storage_state (self : BrowserManager Path) : SE World unit :=
  match context self, _session_path self with
  | Some ctx, Some p =>
      (mkdir_parents driver (path_parent driver p) ;;;
       storage_state driver ctx (path_str driver p))%se
  | _, _ => ret tt
  end.

(** [BrowserManager.close] *)
Definition close (self : BrowserManager Path) : SE World unit :=
  try_finally
    (when_set (context self) (context_close driver))
    (try_finally
       (when_set (browser self) (browser_close driver))
       (when_set (_playwright self) (playwright_stop driver))).

(** [with manager as browser: body]: [__enter__] starts, [__exit__]
    closes and lets an exception of the body through; when [__enter__]
    raises, [__exit__] is not called.  [None] when the body is given too
    little fuel to end. *)
Definition with_browser {A : Type} (self : BrowserManager Path)
    (body : BrowserManager Path -> World -> option (outcome A * World))
  : World -> option (outcome A * (BrowserManager Path * World)) :=
  fun w =>
    match _start (self, w) with
    | (Raise e, st) => Some (Raise e, st)
    | (Ok _, (started, w1)) =>
        match body started w1 with
        | None => None
        | Some (r, w2) =>
            match close started w2 with
            | (Ok _, w3) => Some (r, (started, w3))
            | (Raise e, w3) => Some (Raise e, (started, w3))
            end
        end
    end.

End WithDriver.

End Browser.

(** ** main.py: configuration helpers and the loop of [run_bot] *)

Module Bot.
Import PyStr Chat Sender Browser.

Record BotConfig : Type := {
  command_prefix : string;
  session_path : option string;
  log_level : string;
  simulation_mode : bool;
  google_api_key : option string;
  poll_interval : Z
}.

(** [_to_bool] *)
Definition _to_bool (value : string) : bool :=
  bool_decide (lower (strip value) ∈ ["1"; "true"; "yes"; "on"]).

Section WithWorld.
Context {World Element Path : Type}.
Context (page : Page World) (editor : Editor World Element)
        (driver : Driver World Path).
Context (generate_content :
           string -> string -> string -> World -> Main.completion * World).

(** The body of [for message in messages]. *)
Definition respond (message_filter : Filters.MessageFilter)
    (handler : Handlers.CommandHandler) (ai_client : option string)
    (chat_service : ChatService) (message : ChatMessage) : SE World unit :=
  fun w =>
    match Filters.parse message_filter message with
    | Raise e => (Raise e, w)
    | Ok None => (Ok tt, w)
    | Ok (Some parsed) =>
        let answered : outcome string * World :=
          match Filters.is_command parsed, Filters.command parsed with
          | true, Some cmd => (Handlers.handle handler cmd, w)
          | _, _ =>
              Main.call_ai generate_content ai_client
                (default "" (Filters.query parsed)) w
          end in
        match answered with
        | (Raise e, w1) => (Raise e, w1)
        | (Ok response, w1) =>
            if is_empty response then (Ok tt, w1)
            else (send_message editor chat_service response ;;; ret tt)%se w1
        end
    end.

Fixpoint respond_all (message_filter : Filters.MessageFilter)
    (handler : Handlers.CommandHandler) (ai_client : option string)
    (chat_service : ChatService) (messages : list ChatMessage) : SE World unit :=
  match messages with
  | [] => ret tt
  | message :: rest =>
      (respond message_filter handler ai_client chat_service message ;;;
       respond_all message_filter handler ai_client chat_service rest)%se
  end.

(** One turn of [while True]: poll, answer, sleep. *)
Definition bot_cycle (message_filter : Filters.MessageFilter)
    (handler : Handlers.CommandHandler) (ai_client : option string)
    (interval : Z) : SE (ChatService * World) unit :=
  fun '(chat_service, w) =>
    match poll_new_messages page chat_service w with
    | (Raise e, st) => (Raise e, st)
    | (Ok messages, (chat_service', w1)) =>
        let (r, w2) :=
          (respond_all message_filter handler ai_client chat_service' messages ;;;
           time_sleep page interval)%se w1 in
        (r, (chat_service', w2))
    end.

(** [while True], for at most [fuel] turns; [None] when that many turns
    all ended normally.  The loop ends by an exception only. *)
Fixpoint bot_loop (fuel : nat) (message_filter : Filters.MessageFilter)
    (handler : Handlers.CommandHandler) (ai_client : option string)
    (interval : Z) (st : ChatService * World)
  : option (exn * (ChatService * World)) :=
  match fuel with
  | O => None
  | S fuel' =>
      match bot_cycle message_filter handler ai_client interval st with
      | (Raise e, st') => Some (e, st')
      | (Ok _, st') => bot_loop fuel' message_filter handler ai_client interval st'
      end
  end.

(** The body of the [with] of [run_bot]: open the application, wait for
    the login, save the session, build the services, loop; the [finally]
    of the loop saves the session again.  The loop ends by an exception
    only (an interrupt from the keyboard is not modelled). *)
Definition run_bot_body (login_fuel loop_fuel : nat) (config : BotConfig)
    (browser : BrowserManager Path) : World -> option (outcome unit * World) :=
  fun w =>
    match goto_whatsapp driver browser w with
    | (Raise e, w1) => Some (Raise e, w1)
    | (Ok _, w1) =>
        match Session.ensure_session page login_fuel Session.SessionManager_init w1 with
        | None => None
        | Some (Raise e, w2) => Some (Raise e, w2)
        | Some (Ok _, w2) =>
            match save_storage_state driver browser w2 with
            | (Raise e, w3) => Some (Raise e, w3)
            | (Ok _, w3) =>
                let chat_service := ChatService_init (simulation_mode config) in
                match Filters.MessageFilter_init (command_prefix config) with
                | Raise e => Some (Raise e, w3)
                | Ok message_filter =>
                    let handler :=
                      Handlers.CommandHandler_init (command_prefix config) in
                    let ai_client := Main.make_ai_client (google_api_key config) in
                    match bot_loop loop_fuel message_filter handler ai_client
                            (poll_interval config) (chat_service, w3) with
                    | None => None
                    | Some (e, (_, w4)) =>
                        Some (try_finally (fun w' => (Raise e, w'))
                                (save_storage_state driver browser) w4)
                    end
                end
            end
        end
    end.

(** [run_bot] *)
Definition run_bot (login_fuel loop_fuel : nat) (config : BotConfig)
  : World -> option (outcome unit * (BrowserManager Path * World)) :=
  with_browser driver
    (BrowserManager_init driver (session_path config) false 0)
    (run_bot_body login_fuel loop_fuel config).

(** What [with] makes of a body that raised [e] and left the state [w2]:
    the browser is closed, and [e] comes out unless closing raises. *)
Definition closed_after (started : BrowserManager Path) (e : exn) (w2 : World)
  : outcome unit * (BrowserManager Path * World) :=
  (match (close driver started w2).1 with
   | Ok _ => Raise e
   | Raise e' => Raise e'
   end, (started, (close driver started w2).2)).

End WithWorld.

End Bot.

(** ** More scripted collaborators for the examples *)

Module Fakes.
Import Sender Browser.

(** A page that was closed: every call on it raises an error that is no
    timeout.  There is nothing to record in its state. *)
Definition closed_page : Page unit := {|
  count := fun _ _ => Raise (PlaywrightError "Target closed");
  get_attribute := fun _ _ _ => Raise (PlaywrightError "Target closed");
  inner_text := fun _ _ => Raise (PlaywrightError "Target closed");
  click := fun _ w => (Raise (PlaywrightError "Target closed"), w);
  locator_evaluate := fun _ _ w => (Raise (PlaywrightError "Target closed"), w);
  evaluate := fun _ w => (Raise (PlaywrightError "Target closed"), w);
  wait_for_selector := fun _ _ w => (Raise (PlaywrightError "Target closed"), w);
  bring_to_front := fun w => (Ok tt, w);
  time := fun _ => 0%Z;
  sleep := fun _ w => w
|}.

(** A driver whose every call succeeds at once and leaves the state
    alone; no session file exists. *)
Definition quick_driver {World : Type} : Driver World string := {|
  make_path := fun s => s;
  path_str := fun p => p;
  path_parent := fun p => p;
  path_exists := fun _ _ => Ok false;
  mkdir_parents := fun _ w => (Ok tt, w);
  playwright_start := fun w => (Ok (Handle 0), w);
  chromium_launch := fun _ _ _ w => (Ok (Handle 1), w);
  new_context := fun _ _ w => (Ok (Handle 2), w);
  new_page := fun _ w => (Ok (Handle 3), w);
  goto := fun _ _ w => (Ok tt, w);
  storage_state := fun _ _ w => (Ok tt, w);
  context_close := fun _ w => (Ok tt, w);
  browser_close := fun _ w => (Ok tt, w);
  playwright_stop := fun _ w => (Ok tt, w)
|}.

(** An editor that never finds the input box. *)
Definition blind_editor {World : Type} : Editor World nat := {|
  wait_for_element := fun _ _ w =>
    (Raise (PlaywrightTimeoutError "Timeout exceeded."), w);
  fill := fun _ _ w => (Ok tt, w);
  type_text := fun _ _ w => (Ok tt, w);
  press := fun _ _ w => (Ok tt, w);
  click_element := fun _ w => (Ok tt, w)
|}.

(** A backend that always fails with a quota error. *)
Definition busy_backend {World : Type} (client model contents : string)
    (w : World) : Main.completion * World :=
  (Main.Failed "429 RESOURCE_EXHAUSTED", w).

End Fakes.


(** * Properties *)

(** ** Strings *)

Module PyStrFacts.
Import PyStr.

Lemma app_empty_l (s : string) : "" +:+ s = s.
Proof. reflexivity. Qed.

Lemma app_cons (c : ascii) (s t : string) :
  String c s +:+ t = String c (s +:+ t).
Proof. reflexivity. Qed.

Lemma app_snoc_assoc (cur : string) (c : ascii) (t : string) :
  (cur +:+ String c "") +:+ t = cur +:+ String c t.
Proof.
  induction cur as [|a cur IH]; [reflexivity|].
  rewrite !app_cons. by rewrite IH.
Qed.

Lemma is_empty_snoc (cur : string) (c : ascii) :
  is_empty (cur +:+ String c "") = false.
Proof. by destruct cur. Qed.

Lemma is_empty_true (s : string) : is_empty s = true <-> s = "".
Proof. by destruct s. Qed.

Lemma lower_char_idemp (c : ascii) : lower_char (lower_char c) = lower_char c.
Proof. by destruct c as [[] [] [] [] [] [] [] []]. Qed.

Lemma lower_idemp (s : string) : lower (lower s) = lower s.
Proof.
  induction s as [|c s IH]; simpl; [done|].
  by rewrite lower_char_idemp, IH.
Qed.

Lemma lower_empty (s : string) : lower s = "" <-> s = "".
Proof. by destruct s. Qed.

Lemma lstrip_head (s : string) :
  lstrip s = "" \/ exists c r, lstrip s = String c r /\ isspace c = false.
Proof.
  induction s as [|c s IH]; simpl; [by left|].
  destruct (isspace c) eqn:Hc; [done|]. right. by exists c, s.
Qed.

Lemma rstrip_head (c : ascii) (s : string) :
  isspace c = false -> rstrip (String c s) = String c (rstrip s).
Proof. intros Hc. simpl. by rewrite Hc. Qed.

(** A stripped string is empty or starts with a character that is no
    whitespace. *)
Lemma strip_head (s : string) :
  strip s = "" \/ exists c r, strip s = String c r /\ isspace c = false.
Proof.
  unfold strip. destruct (lstrip_head s) as [->|(c & r & -> & Hc)].
  - by left.
  - right. exists c, (rstrip r). by rewrite rstrip_head.
Qed.

Lemma startswith_app (p s : string) : startswith p (p +:+ s) = true.
Proof.
  induction p as [|a p IH]; [done|].
  rewrite app_cons. simpl. rewrite IH. by rewrite Ascii.eqb_refl.
Qed.

Lemma slice_from_app (p s : string) : slice_from (String.length p) (p +:+ s) = s.
Proof. induction p as [|a p IH]; [done|]. by rewrite app_cons. Qed.

End PyStrFacts.

(** ** The parser *)

Module FiltersFacts.
Import PyStr PyStrFacts Filters.

#[local] Arguments Ascii.eqb : simpl never.

Lemma strip_prefix_startswith (p s : string) :
  strip_prefix p s =
  if startswith p s then Some (slice_from (String.length p) s) else None.
Proof.
  revert s. induction p as [|a p IH]; intros s; [done|].
  destruct s as [|b s]; simpl; [done|].
  destruct (Ascii.eqb a b); simpl; [apply IH|done].
Qed.

(** The scan of [split] and the right-to-left [tokens] agree, whatever
    word is being read. *)
Lemma split_go_tokens (s cur : string) :
  split_go cur s =
  if is_empty cur then tokens s
  else if at_word_end s then cur :: tokens s
  else match tokens s with
       | t :: ts => (cur +:+ t) :: ts
       | [] => [cur]
       end.
Proof.
  revert cur. induction s as [|c s IH]; intros cur; simpl.
  - by destruct (is_empty cur).
  - destruct (isspace c) eqn:Hc.
    + rewrite (IH ""). simpl. by destruct (is_empty cur).
    + rewrite IH, is_empty_snoc.
      destruct (is_empty cur) eqn:Hcur.
      * apply is_empty_true in Hcur as ->. rewrite app_empty_l.
        destruct (at_word_end s); [done|].
        by destruct (tokens s).
      * destruct (at_word_end s); [done|].
        destruct (tokens s) as [|t ts]; [done|].
        by rewrite app_snoc_assoc.
Qed.

Lemma split_tokens (s : string) : split s = tokens s.
Proof. unfold split. by rewrite split_go_tokens. Qed.

(** The first token of a string that starts with a non-blank starts with
    that character. *)
Lemma tokens_head (c : ascii) (s : string) :
  isspace c = false ->
  exists t ts, tokens (String c s) = String c t :: ts.
Proof.
  intros Hc. simpl. rewrite Hc.
  destruct (at_word_end s); [by eexists _, _|].
  destruct (tokens s); by eexists _, _.
Qed.

(** Tokens are non-empty and free of whitespace, and put end to end they
    are the string without its whitespace. *)
Lemma tokens_blank_free (s : string) :
  Forall (fun t => t <> "" /\ blank_free t = true) (tokens s).
Proof.
  induction s as [|c s IH]; simpl; [constructor|].
  destruct (isspace c) eqn:Hc; [done|].
  destruct (at_word_end s).
  - constructor; [|done]. simpl. by rewrite Hc.
  - destruct (tokens s) as [|t ts].
    + constructor; [|done]. simpl. by rewrite Hc.
    + inversion IH as [|?? [_ Ht] Hts]; subst.
      constructor; [|done]. simpl. by rewrite Hc, Ht.
Qed.

Lemma tokens_concat (s : string) :
  String.concat "" (tokens s) = remove_blanks s.
Proof.
  assert (forall l, String.concat "" l = foldr String.append "" l) as Hcat.
  { induction l as [|x [|y l] IH]; simpl in *; [done| |by rewrite IH].
    clear. induction x as [|a x IH]; [done|]. by rewrite app_cons, <- IH. }
  rewrite Hcat. induction s as [|c s IH]; simpl; [done|].
  destruct (isspace c) eqn:Hc; [done|].
  destruct (at_word_end s) eqn:He.
  - simpl. by rewrite IH.
  - destruct (tokens s) as [|t ts]; simpl in *.
    + by rewrite <- IH.
    + by rewrite app_cons, IH.
Qed.

#[local] Arguments tokens : simpl never.

(** [parse] and the worded definition agree on every text, for the empty
    prefix too. *)
Lemma parse_parse_reference (self : MessageFilter) (message : ChatMessage) :
  parse self message =
  Ok (to_message <$> parse_reference (_prefix self) (text message)).
Proof.
  unfold parse, parse_reference. rewrite strip_prefix_startswith.
  destruct (startswith (_prefix self) (text message)); simpl; [|done].
  set (payload := strip _).
  destruct (strip_head (slice_from (String.length (_prefix self)) (text message)))
    as [Hp|(c & r & Hp & Hc)]; fold payload in Hp; rewrite Hp; simpl; [done|].
  rewrite split_tokens.
  destruct (tokens_head c r Hc) as (t & ts & ->). simpl.
  destruct (Ascii.eqb "-" c) eqn:Hdash.
  - apply Ascii.eqb_eq in Hdash as <-. simpl. by rewrite drop_0.
  - destruct c as [[] [] [] [] [] [] [] []]; try done.
Qed.

Lemma MessageFilter_init_prefix (prefix : string) (self : MessageFilter) :
  MessageFilter_init prefix = Ok self -> _prefix self = prefix /\ prefix <> "".
Proof.
  unfold MessageFilter_init. destruct prefix; simpl; [done|].
  intros [= <-]. by split.
Qed.

(** What [parse] does with a text made of the prefix and a rest whose
    stripped form starts with a non-blank [c]. *)
Lemma parse_prefixed (self : MessageFilter) (message : ChatMessage)
    (rest : string) (c : ascii) (r : string) :
  text message = _prefix self +:+ rest ->
  strip rest = String c r -> isspace c = false ->
  exists t ts,
    split (String c r) = String c t :: ts /\
    parse self message =
    Ok (Some (if Ascii.eqb "-" c
              then {| is_command := true;
                      command := Some {| name := lower t; args := ts |};
                      query := None |}
              else {| is_command := false; command := None;
                      query := Some (String c r) |})).
Proof.
  intros Htext Hstrip Hc.
  destruct (tokens_head c r Hc) as (t & ts & Htok).
  exists t, ts. rewrite split_tokens, Htok. split; [done|].
  unfold parse. rewrite Htext, startswith_app, slice_from_app, Hstrip.
  simpl. rewrite split_tokens, Htok. simpl.
  rewrite andb_true_r, drop_0. by destruct (Ascii.eqb "-" c).
Qed.

(** C1: for every configured non-empty prefix and every message, [parse]
    returns what the worded definition of the parser returns (none without
    the prefix or with an empty payload, a command variant when the first
    token starts with "-", a query variant with the whole trimmed payload
    otherwise); with prefix "/bot", "/bot -cmd a b" is the command "cmd"
    with args ["a"; "b"] and "/bot hola" is the query "hola". *)
Theorem parse_follows_reference :
  (forall (prefix : string) (self : MessageFilter) (message : ChatMessage),
     MessageFilter_init prefix = Ok self ->
     parse self message =
     Ok (to_message <$> parse_reference prefix (text message)))
  /\ (forall (self : MessageFilter) (message : ChatMessage),
       MessageFilter_init "/bot" = Ok self ->
       (text message = "/bot -cmd a b" ->
        parse self message =
        Ok (Some {| is_command := true;
                    command := Some {| name := "cmd"; args := ["a"; "b"] |};
                    query := None |}))
       /\ (text message = "/bot hola" ->
           parse self message =
           Ok (Some {| is_command := false; command := None;
                       query := Some "hola" |}))).
Proof.
  split.
  - intros prefix self message [<- _]%MessageFilter_init_prefix.
    apply parse_parse_reference.
  - intros self message [Hp _]%MessageFilter_init_prefix.
    split; intros Ht; rewrite parse_parse_reference, Hp, Ht; reflexivity.
Qed.

Lemma parse_follows_reference_witness :
  MessageFilter_init "/bot" = Ok {| _prefix := "/bot" |}
  /\ parse {| _prefix := "/bot" |} (ChatMessage_new "/bot -Cmd a  b " false) =
     Ok (to_message <$> parse_reference "/bot" "/bot -Cmd a  b ").
Proof.
  split; [reflexivity|].
  apply (proj1 parse_follows_reference "/bot"). reflexivity.
Defined.

(** C8, as stated, fails: the payload "-" is accepted as a command whose
    name is empty. *)
Lemma command_name_may_be_empty :
  exists (pm : ParsedMessage) (cmd : ParsedCommand),
    parse {| _prefix := "/bot" |} (ChatMessage_new "/bot -" false) = Ok (Some pm)
    /\ is_command pm = true /\ command pm = Some cmd /\ name cmd = "".
Proof. by eexists _, _. Qed.

(** C8, amended: the name of every command variant is lower-cased, and it
    is empty exactly when the first token of the payload is the bare "-". *)
Theorem command_name_lower_cased
    (prefix : string) (self : MessageFilter) (message : ChatMessage)
    (pm : ParsedMessage) :
  MessageFilter_init prefix = Ok self ->
  parse self message = Ok (Some pm) ->
  is_command pm = true ->
  exists (first_word : string) (rest : list string) (cmd : ParsedCommand),
    split (strip (slice_from (String.length prefix) (text message)))
      = first_word :: rest
    /\ command pm = Some cmd
    /\ args cmd = rest
    /\ lower (name cmd) = name cmd
    /\ (name cmd = "" <-> first_word = "-").
Proof.
  intros [<- _]%MessageFilter_init_prefix. unfold parse.
  destruct (startswith _ _); simpl; [|done].
  destruct (is_empty _); [done|].
  destruct (split _) as [|first_word rest]; simpl; [done|].
  destruct first_word as [|d w]; simpl; [by intros [= <-]|].
  destruct (Ascii.eqb "-" d) eqn:Hd; simpl; [|by intros [= <-]].
  apply Ascii.eqb_eq in Hd as <-. intros [= <-] _. simpl.
  exists (String "-" w), rest, {| name := lower w; args := rest |}.
  rewrite drop_0. simpl. split_and!; [done..|apply lower_idemp|].
  split; [by intros ->%lower_empty|by intros [= ->]].
Qed.

Lemma command_name_lower_cased_witness :
  exists (first_word : string) (rest : list string) (cmd : ParsedCommand),
    split (strip (slice_from (String.length "/bot") "/bot  -HeLP me")) = first_word :: rest
    /\ Some {| name := "help"; args := ["me"] |} = Some cmd
    /\ args cmd = rest
    /\ lower (name cmd) = name cmd
    /\ (name cmd = "" <-> first_word = "-").
Proof.
  apply (command_name_lower_cased "/bot" {| _prefix := "/bot" |}
           (ChatMessage_new "/bot  -HeLP me" false)
           {| is_command := true;
              command := Some {| name := "help"; args := ["me"] |};
              query := None |}); reflexivity.
Defined.

(** C10: the prefix test asks for no word boundary.  A text made of the
    prefix immediately followed by a non-blank is never ignored: it is
    parsed exactly as if a blank separated the two, the payload being all
    that follows the prefix; so "/bothola" is the query "hola". *)
Theorem prefix_needs_no_word_boundary :
  (forall (prefix : string) (self : MessageFilter) (c : ascii) (rest : string)
          (message spaced : ChatMessage),
     MessageFilter_init prefix = Ok self ->
     isspace c = false ->
     text message = prefix +:+ String c rest ->
     text spaced = prefix +:+ " " +:+ String c rest ->
     (exists pm : ParsedMessage, parse self message = Ok (Some pm))
     /\ parse self message = parse self spaced
     /\ (c <> "-"%char ->
         parse self message =
         Ok (Some {| is_command := false; command := None;
                     query := Some (strip (String c rest)) |})))
  /\ (forall message : ChatMessage,
       text message = "/bothola" ->
       parse {| _prefix := "/bot" |} message =
       Ok (Some {| is_command := false; command := None;
                   query := Some "hola" |})).
Proof.
  split.
  - intros prefix self c rest message spaced
      [<- _]%MessageFilter_init_prefix Hc Hm Hs.
    assert (strip (String c rest) = String c (rstrip rest)) as Hstrip.
    { unfold strip. cbn [lstrip]. rewrite Hc. by apply rstrip_head. }
    destruct (parse_prefixed self message _ c _ Hm Hstrip Hc)
      as (t & ts & Hsplit & Hparse).
    destruct (parse_prefixed self spaced (" " +:+ String c rest) c
                (rstrip rest) Hs) as (t' & ts' & Hsplit' & Hparse');
      [by rewrite app_cons, app_empty_l|done|].
    rewrite Hsplit in Hsplit'. injection Hsplit' as <- <-.
    split; [eauto|]. split; [congruence|].
    intros Hne. rewrite Hparse, Hstrip.
    destruct (Ascii.eqb "-" c) eqn:Hd; [|done].
    by apply Ascii.eqb_eq in Hd.
  - intros message Ht. unfold parse. by rewrite Ht.
Qed.

Lemma prefix_needs_no_word_boundary_witness :
  parse {| _prefix := "/bot" |} (ChatMessage_new "/bot-ping now" true)
  = parse {| _prefix := "/bot" |} (ChatMessage_new "/bot -ping now" false).
Proof.
  apply (proj1 prefix_needs_no_word_boundary "/bot" {| _prefix := "/bot" |}
           "-"%char "ping now"); reflexivity.
Defined.

End FiltersFacts.

(** ** The dispatcher *)

Module HandlersFacts.
Import PyStr Handlers.

Lemma sorted_spec (l : list string) :
  Sorted String.le (sorted l) /\ sorted l ≡ₚ l.
Proof.
  split; [apply (Sorted_merge_sort String.le)|apply merge_sort_Permutation].
Qed.

(** The names the listing shows: sorted, each once, the table's keys and
    "help". *)
Lemma help_names_spec (self : CommandHandler) :
  let names := sorted (elements (dom (_commands self) ∪ {[ "help" ]})) in
  Sorted String.le names /\ NoDup names
  /\ forall n : string, n ∈ names <-> n = "help" \/ is_Some (_commands self !! n).
Proof.
  intros names. destruct (sorted_spec (elements (dom (_commands self) ∪ {[ "help" ]})))
    as [Hs Hp]. fold names in Hs, Hp.
  split; [done|]. split.
  - rewrite Hp. apply NoDup_elements.
  - intros n. rewrite Hp, elem_of_elements, elem_of_union, elem_of_dom,
      elem_of_singleton. tauto.
Qed.

(** C2: [handle] never raises.  For "help" the reply is the header line
    "Available commands:" followed by one line "- <prefix> <name>" per
    known name, the names being the table's keys and "help", sorted and
    each once; for a key of the table it is the key's canned value (so
    "ping" gives "pong"); for any other name it is exactly
    "Unknown command '<name>'. Try '<prefix> help'.". *)
Theorem handle_postcondition :
  (forall (self : CommandHandler) (command : Filters.ParsedCommand),
     exists reply : string,
       handle self command = Ok reply
       /\ (Filters.name command = "help" ->
           exists names : list string,
             reply = "Available commands:" +:+ nl
                     +:+ join nl ((fun n => "- " +:+ _prefix self +:+ " " +:+ n)
                                    <$> names)
             /\ Sorted String.le names /\ NoDup names
             /\ forall n : string,
                 n ∈ names <-> n = "help" \/ is_Some (_commands self !! n))
       /\ (Filters.name command <> "help" ->
           forall v : string,
             _commands self !! Filters.name command = Some v -> reply = v)
       /\ (Filters.name command <> "help" ->
           _commands self !! Filters.name command = None ->
           reply = "Unknown command '" +:+ Filters.name command
                   +:+ "'. Try '" +:+ _prefix self +:+ " help'."))
  /\ (forall args : list string,
        handle (CommandHandler_init "/bot")
          {| Filters.name := "ping"; Filters.args := args |} = Ok "pong"
        /\ handle (CommandHandler_init "/bot")
             {| Filters.name := "xyz"; Filters.args := args |}
           = Ok "Unknown command 'xyz'. Try '/bot help'."
        /\ handle (CommandHandler_init "/bot")
             {| Filters.name := "help"; Filters.args := args |}
           = Ok ("Available commands:" +:+ nl +:+ "- /bot help" +:+ nl
                 +:+ "- /bot ping")).
Proof.
  split; [|intros args; split_and!; by vm_compute].
  intros self command. unfold handle.
  destruct (decide (Filters.name command = "help")) as [Hh|Hh].
  { eexists. split; [done|]. split_and!; [|done..].
    intros _. eexists. split; [reflexivity|]. apply help_names_spec. }
  destruct (decide (Filters.name command ∈ dom (_commands self))) as [Hin|Hin].
  - apply elem_of_dom in Hin as [v Hv]. rewrite Hv.
    exists v. split_and!; [done|done|congruence|congruence].
  - apply not_elem_of_dom in Hin. eexists. split_and!; [done|done|congruence|done].
Qed.

Lemma handle_postcondition_witness :
  exists reply : string,
    handle (CommandHandler_init "/bot")
      {| Filters.name := "ping"; Filters.args := ["now"] |} = Ok reply
    /\ reply = "pong".
Proof.
  destruct (proj1 handle_postcondition (CommandHandler_init "/bot")
              {| Filters.name := "ping"; Filters.args := ["now"] |})
    as (reply & Hr & _ & Hkey & _).
  exists reply. split; [exact Hr|].
  apply Hkey; [discriminate|reflexivity].
Defined.

End HandlersFacts.

(** ** The deduplication cache *)

Module DedupFacts.
Import Chat.

Lemma push_if_new_spec (seen : gmap string string) (bucket : list ChatMessage)
    (t : string) (fm : bool) :
  _push_if_new seen bucket t fm =
  if decide (seen !! "last" = Some t) then (seen, bucket)
  else (<["last" := t]> seen, (bucket ++ [ChatMessage_new t fm])%list).
Proof. reflexivity. Qed.

Lemma feed_cons (seen : gmap string string) (bucket : list ChatMessage)
    (r : string * bool) (reads : list (string * bool)) :
  feed seen bucket (r :: reads) =
  feed (_push_if_new seen bucket r.1 r.2).1 (_push_if_new seen bucket r.1 r.2).2
       reads.
Proof. unfold feed. simpl. by destruct (_push_if_new _ _ _ _). Qed.

(** What a bucket holds after a run of reads, and what the cache holds. *)
Lemma feed_spec (reads : list (string * bool)) (seen : gmap string string)
    (bucket : list ChatMessage) :
  text <$> (feed seen bucket reads).2
  = ((text <$> bucket) ++ drop_repeats (seen !! "last") (fst <$> reads))%list
  /\ (feed seen bucket reads).1 !! "last"
     = from_option Some (seen !! "last") (last (fst <$> reads)).
Proof.
  revert seen bucket. induction reads as [|[t fm] reads IH]; intros seen bucket.
  - simpl. by rewrite app_nil_r.
  - rewrite feed_cons, push_if_new_spec. simpl.
    destruct (decide (seen !! "last" = Some t)) as [Hs|Hs]; simpl.
    + destruct (IH seen bucket) as [-> ->]. split; [done|].
      change (list_fmap _ _ fst reads) with (fst <$> reads).
      rewrite last_cons, Hs. by destruct (last (fst <$> reads)).
    + destruct (IH (<["last" := t]> seen)
                  (bucket ++ [ChatMessage_new t fm])%list) as [-> ->].
      rewrite lookup_insert_eq, fmap_app, <- app_assoc. split; [done|].
      change (list_fmap _ _ fst reads) with (fst <$> reads).
      rewrite last_cons. by destruct (last (fst <$> reads)).
Qed.

Lemma drop_repeats_app (l1 l2 : list string) (prev : option string) :
  drop_repeats prev (l1 ++ l2)%list
  = (drop_repeats prev l1
     ++ drop_repeats (from_option Some prev (last l1)) l2)%list.
Proof.
  revert prev. induction l1 as [|t l1 IH]; intros prev; simpl; [done|].
  rewrite last_cons.
  destruct (decide (prev = Some t)) as [->|Hne]; rewrite IH;
    by destruct (last l1).
Qed.

Lemma last_app_from_option (l1 l2 : list string) (prev : option string) :
  from_option Some (from_option Some prev (last l1)) (last l2)
  = from_option Some prev (last (l1 ++ l2)%list).
Proof.
  destruct l2 as [|x l2 _] using rev_ind.
  - rewrite app_nil_r. simpl. by destruct (last l1).
  - by rewrite app_assoc, !last_snoc.
Qed.

Lemma feed_cycles_spec (cycles : list (list (string * bool)))
    (seen : gmap string string) :
  text <$> concat (feed_cycles seen cycles).2
  = drop_repeats (seen !! "last") (fst <$> concat cycles)
  /\ (feed_cycles seen cycles).1 !! "last"
     = from_option Some (seen !! "last") (last (fst <$> concat cycles)).
Proof.
  revert seen. induction cycles as [|reads cycles IH]; intros seen; [done|].
  simpl. destruct (feed_spec reads seen []) as [Hb Hs].
  destruct (feed seen [] reads) as [seen1 bucket]. simpl in Hb, Hs.
  destruct (IH seen1) as [Hb' Hs'].
  destruct (feed_cycles seen1 cycles) as [seen2 buckets]. simpl in *.
  rewrite !fmap_app, Hb, Hb', Hs', Hs, drop_repeats_app.
  by rewrite last_app_from_option.
Qed.

(** No two neighbours of a list without immediate repeats are equal, and
    its first element is not the text before it. *)
Lemma drop_repeats_neighbours (reads : list string) (prev : option string) :
  head (drop_repeats prev reads) <> prev \/ drop_repeats prev reads = [].
Proof.
  revert prev. induction reads as [|t reads IH]; intros prev; simpl; [by right|].
  destruct (decide (prev = Some t)) as [->|Hne]; [apply IH|].
  left. simpl. congruence.
Qed.

Lemma drop_repeats_no_repeat (reads : list string) (prev : option string)
    (i : nat) (t : string) :
  drop_repeats prev reads !! i = Some t ->
  drop_repeats prev reads !! S i <> Some t.
Proof.
  revert prev i. induction reads as [|r reads IH]; intros prev i; simpl; [done|].
  destruct (decide (prev = Some r)) as [->|Hne]; [apply IH|].
  destruct i as [|i]; simpl; [|apply IH].
  intros [= ->]. destruct (drop_repeats_neighbours reads (Some t)) as [Hh| ->];
    [|done].
  by destruct (drop_repeats (Some t) reads).
Qed.

(** C3, as stated, fails: a text read again after another text was
    forwarded is forwarded a second time (here in the next cycle). *)
Lemma same_text_forwarded_twice :
  (feed_cycles ∅ [[("hola", false); ("adios", false)]; [("hola", false)]]).2
  = [[ChatMessage_new "hola" false; ChatMessage_new "adios" false];
     [ChatMessage_new "hola" false]].
Proof. reflexivity. Qed.

(** C3, amended: over any cycles of successful reads and from any cache,
    the forwarded texts are the read texts without their immediate repeats
    (a read is dropped exactly when its text is the one read just before
    it, or the cached one for the first read).  So no two messages
    forwarded one after the other carry the same text, the first one
    forwarded differs from the cached text, and the cache ends up holding
    the last text read. *)
Theorem forwarded_without_immediate_repeats
    (seen : gmap string string) (cycles : list (list (string * bool))) :
  let forwarded := text <$> concat (feed_cycles seen cycles).2 in
  forwarded = drop_repeats (seen !! "last") (fst <$> concat cycles)
  /\ (forall (i : nat) (t : string),
        forwarded !! i = Some t -> forwarded !! S i <> Some t)
  /\ (forall t : string, seen !! "last" = Some t -> head forwarded <> Some t)
  /\ (feed_cycles seen cycles).1 !! "last"
     = from_option Some (seen !! "last") (last (fst <$> concat cycles)).
Proof.
  intros forwarded. destruct (feed_cycles_spec cycles seen) as [Hf Hs].
  subst forwarded. rewrite Hf. split_and!; [done| |  |done].
  - intros i t. apply drop_repeats_no_repeat.
  - intros t Ht. rewrite Ht.
    destruct (drop_repeats_neighbours (fst <$> concat cycles) (Some t))
      as [Hh| ->]; done.
Qed.

(** C7, as stated, fails: from a cache that already holds the text, two
    reads of it emit nothing. *)
Lemma cached_text_not_emitted :
  feed {[ "last" := "hola" ]} [] [("hola", false); ("hola", false)]
  = ({[ "last" := "hola" ]}, []).
Proof. reflexivity. Qed.

(** C7, amended: two reads of one text in a row emit exactly one message
    when the cache does not already hold that text (the empty cache of a
    fresh service included), and none when it does; either way a third
    read with another text emits one more message and leaves that text in
    the cache. *)
Theorem successive_reads_deduplicated
    (seen : gmap string string) (t u : string) (fm1 fm2 fm3 : bool) :
  t <> u ->
  let two := feed seen [] [(t, fm1); (t, fm2)] in
  let three := feed seen [] [(t, fm1); (t, fm2); (u, fm3)] in
  two.1 !! "last" = Some t
  /\ three.1 !! "last" = Some u
  /\ (seen !! "last" <> Some t ->
      two.2 = [ChatMessage_new t fm1]
      /\ three.2 = [ChatMessage_new t fm1; ChatMessage_new u fm3])
  /\ (seen !! "last" = Some t ->
      two.2 = [] /\ three.2 = [ChatMessage_new u fm3]).
Proof.
  intros Htu two three. subst two three. unfold feed. simpl.
  rewrite (push_if_new_spec seen [] t fm1).
  destruct (decide (seen !! "last" = Some t)) as [Hs|Hs]; simpl.
  - rewrite (push_if_new_spec seen [] t fm2), decide_True by done. simpl.
    rewrite push_if_new_spec, decide_False by congruence. simpl.
    by rewrite lookup_insert_eq.
  - rewrite push_if_new_spec, decide_True by apply lookup_insert_eq. simpl.
    rewrite push_if_new_spec,
      decide_False by (rewrite lookup_insert_eq; congruence). simpl.
    by rewrite !lookup_insert_eq.
Qed.

Lemma successive_reads_deduplicated_witness :
  (feed ∅ [] [("/bot hola", false); ("/bot hola", false)]).1 !! "last"
    = Some "/bot hola"
  /\ (feed ∅ [] [("/bot hola", false); ("/bot hola", false);
                 ("/bot -ping", true)]).1 !! "last" = Some "/bot -ping"
  /\ ((∅ : gmap string string) !! "last" <> Some "/bot hola" ->
      (feed ∅ [] [("/bot hola", false); ("/bot hola", false)]).2
        = [ChatMessage_new "/bot hola" false]
      /\ (feed ∅ [] [("/bot hola", false); ("/bot hola", false);
                     ("/bot -ping", true)]).2
         = [ChatMessage_new "/bot hola" false; ChatMessage_new "/bot -ping" true])
  /\ ((∅ : gmap string string) !! "last" = Some "/bot hola" ->
      (feed ∅ [] [("/bot hola", false); ("/bot hola", false)]).2 = []
      /\ (feed ∅ [] [("/bot hola", false); ("/bot hola", false);
                     ("/bot -ping", true)]).2
         = [ChatMessage_new "/bot -ping" true]).
Proof.
  apply (successive_reads_deduplicated ∅ "/bot hola" "/bot -ping"
           false false true).
  discriminate.
Defined.

End DedupFacts.

(** ** Reading the last message *)

Module ReaderFacts.
Import PyStr Chat.

Section WithPage.
Context {World : Type} (page : Page World).

(** When a text selector is accepted and when it is passed over. *)
Lemma text_candidate_spec (last_bubble : Locator) (w : World) (ts : string) :
  let text_el := First (SubLocator last_bubble ts) in
  (forall t : string,
     text_candidate page last_bubble w ts = Ok (Some t) <->
     exists (k : nat) (raw : string),
       count page text_el w = Ok (S k)
       /\ inner_text page text_el w = Ok raw
       /\ t = strip raw /\ 1 < String.length t)
  /\ (text_candidate page last_bubble w ts = Ok None <->
      count page text_el w = Ok 0
      \/ exists (k : nat) (raw : string),
           count page text_el w = Ok (S k)
           /\ inner_text page text_el w = Ok raw
           /\ String.length (strip raw) <= 1).
Proof.
  intros text_el. unfold text_candidate. fold text_el.
  destruct (count page text_el w) as [[|k]|e]; simpl.
  - split; [intros t; split; [done|by intros (? & ? & [=] & _)]|].
    split; [by left|done].
  - destruct (inner_text page text_el w) as [raw|e]; simpl.
    + destruct (strip raw) as [|a [|b s]] eqn:Hs; simpl.
      * split; [intros t|]; split; try done.
        -- intros (k' & raw' & _ & [= <-] & -> & Hlen). rewrite Hs in Hlen.
           simpl in Hlen. lia.
        -- intros _. right. exists k, raw. rewrite Hs. simpl. split_and!; [done..|lia].
      * split; [intros t|]; split; try done.
        -- intros (k' & raw' & _ & [= <-] & -> & Hlen). rewrite Hs in Hlen.
           simpl in Hlen. lia.
        -- intros _. right. exists k, raw. rewrite Hs. simpl. split_and!; [done..|lia].
      * split; [intros t|]; split.
        -- intros [= <-]. exists k, raw. rewrite Hs. simpl. split_and!; [done..|lia].
        -- intros (k' & raw' & _ & [= <-] & -> & _). by rewrite Hs.
        -- done.
        -- intros [|(k' & raw' & _ & [= <-] & Hlen)]; [done|].
           rewrite Hs in Hlen. simpl in Hlen. lia.
    + split; [intros t; split; [done|by intros (? & ? & _ & [=] & _)]|].
      split; [done|by intros [[=]|(? & ? & _ & [=] & _)]].
  - split; [intros t; split; [done|by intros (? & ? & [=] & _)]|].
    split; [done|by intros [[=]|(? & ? & [=] & _)]].
Qed.

(** The loop over the text selectors stops at the first selector that is
    not passed over. *)
Lemma scan_text_selectors_first (last_bubble : Locator) (is_from_me : bool)
    (w : World) (pre : list string) (ts : string) (post : list string) :
  Forall (fun s => text_candidate page last_bubble w s = Ok None) pre ->
  scan_text_selectors page last_bubble is_from_me (pre ++ ts :: post) w =
  match text_candidate page last_bubble w ts with
  | Raise e => Raise e
  | Ok (Some t) => Ok (Some (t, is_from_me))
  | Ok None => scan_text_selectors page last_bubble is_from_me post w
  end.
Proof.
  induction 1 as [|s pre Hs _ IH]; simpl; [done|]. by rewrite Hs.
Qed.

Lemma scan_text_selectors_none (last_bubble : Locator) (is_from_me : bool)
    (w : World) (selectors : list string) :
  Forall (fun s => text_candidate page last_bubble w s = Ok None) selectors ->
  scan_text_selectors page last_bubble is_from_me selectors w = Ok None.
Proof.
  induction 1 as [|s pre Hs _ IH]; simpl; [done|]. by rewrite Hs.
Qed.

(** [_last_message_text] never raises, and its page is the one the
    [try] left. *)
Lemma last_message_text_total (w : World) :
  exists r : option (string * bool),
    _last_message_text page w = (Ok r, (last_message_text_try page w).2)
    /\ r = match (last_message_text_try page w).1 with
           | Ok r' => r'
           | Raise _ => None
           end.
Proof.
  unfold _last_message_text, try_except.
  destruct (last_message_text_try page w) as [[r|e] w']; by eexists.
Qed.

#[local] Arguments scan_text_selectors : simpl never.

(** C6: [_last_message_text] returns and never raises.  It gives none
    when the container holds no bubble; with bubbles it reads the one at
    the highest index, takes the first text selector whose trimmed text is
    longer than one character, and sets [from_me] by whether the class of
    that bubble contains "message-out"; and whatever raises on the way
    (finding the container, counting, reading the class, testing a
    selector) makes it give none. *)
Theorem last_message_text_spec (w : World) :
  exists (r : option (string * bool)) (w' : World),
    _last_message_text page w = (Ok r, w')
    /\ (forall e : exn, resolve_container page w = Raise e -> r = None)
    /\ (resolve_container page w = Ok None -> r = None)
    /\ (forall container : Locator,
          resolve_container page w = Ok (Some container) ->
          let bubbles := SubLocator container bubble_selector in
          w' = scroll_to_bottom page w
          /\ (forall e : exn, count page bubbles w' = Raise e -> r = None)
          /\ (count page bubbles w' = Ok 0 -> r = None)
          /\ (forall n : nat,
                count page bubbles w' = Ok (S n) ->
                let last_bubble := Nth bubbles n in
                (forall e : exn,
                   get_attribute page last_bubble "class" w' = Raise e ->
                   r = None)
                /\ (forall cls : option string,
                      get_attribute page last_bubble "class" w' = Ok cls ->
                      let is_from_me :=
                        contains "message-out" (default "" cls) in
                      let passed s :=
                        text_candidate page last_bubble w' s = Ok None in
                      (Forall passed text_selectors -> r = None)
                      /\ (forall (pre : list string) (ts : string)
                                 (post : list string),
                            text_selectors = (pre ++ ts :: post)%list ->
                            Forall passed pre ->
                            (forall e : exn,
                               text_candidate page last_bubble w' ts = Raise e ->
                               r = None)
                            /\ (forall (k : nat) (raw : string),
                                  let text_el :=
                                    First (SubLocator last_bubble ts) in
                                  count page text_el w' = Ok (S k) ->
                                  inner_text page text_el w' = Ok raw ->
                                  1 < String.length (strip raw) ->
                                  r = Some (strip raw, is_from_me)))))).
Proof.
  destruct (last_message_text_total w) as (r & Heq & Hr).
  exists r, (last_message_text_try page w).2. split; [exact Heq|].
  clear Heq. unfold last_message_text_try in *.
  destruct (resolve_container page w) as [[container|]|e0]; simpl in *.
  - split_and!; [done|done|]. intros ? [= <-]. split; [done|].
    unfold read_last_bubble in Hr.
    set (bubbles := SubLocator container bubble_selector) in *.
    set (w' := scroll_to_bottom page w) in *.
    destruct (count page bubbles w') as [[|n]|e1]; simpl in Hr.
    + split_and!; done.
    + split_and!; [done|done|]. intros ? [= <-].
      replace (n - 0) with n in Hr by lia.
      set (last_bubble := Nth bubbles n) in *.
      destruct (get_attribute page last_bubble "class" w') as [cls|e2];
        simpl in Hr; [|by split].
      split; [done|]. intros ? [= <-].
      set (is_from_me := contains "message-out" (default "" cls)) in *.
      split.
      * intros Hall. by rewrite scan_text_selectors_none in Hr.
      * intros pre ts post Hsel Hpre. rewrite Hsel in Hr.
        rewrite scan_text_selectors_first in Hr by done.
        split.
        -- intros e He. by rewrite He in Hr.
        -- intros k raw Hk Hraw Hlen.
           assert (text_candidate page last_bubble w' ts = Ok (Some (strip raw)))
             as Hc.
           { apply (text_candidate_spec last_bubble w' ts). by exists k, raw. }
           by rewrite Hc in Hr.
    + split_and!; done.
  - split_and!; done.
  - split_and!; done.
Qed.

End WithPage.

End ReaderFacts.

(** ** The scan cycle *)

Module ScanFacts.
Import PyStr Chat ReaderFacts.

Section WithPage.
Context {World : Type} (page : Page World).

Lemma on_page_untouched {A : Type} (m : SE World A) (c : Cycle World) :
  untouched c (on_page m c).2.
Proof. unfold on_page. by destruct (m (page_state c)). Qed.

(** What is left to do once the last message was read: the end of
    [process_chat] and the whole of [_collect_active_chat_message]. *)
Lemma read_then_push (c : Cycle World) :
  exists c' : Cycle World,
    _collect_active_chat_message page c = (Ok tt, c')
    /\ page_state c' = (_last_message_text page (page_state c)).2
    /\ (last_seen c', messages c')
       = match (_last_message_text page (page_state c)).1 with
         | Ok (Some (text, from_me)) =>
             _push_if_new (last_seen c) (messages c) text from_me
         | _ => (last_seen c, messages c)
         end.
Proof.
  unfold _collect_active_chat_message, bind, on_page.
  destruct (last_message_text_total page (page_state c)) as (r & -> & _).
  simpl. destruct r as [[t fm]|]; simpl.
  - unfold push_if_new. simpl.
    destruct (_push_if_new (last_seen c) (messages c) t fm) as [seen bucket].
    by eexists.
  - by eexists.
Qed.

Lemma chat_post_bind {A : Type} (m : SE (Cycle World) A)
    (k : A -> SE (Cycle World) unit) :
  (forall c, untouched c (m c).2) ->
  (forall a, chat_post page (k a)) ->
  chat_post page (bind m k).
Proof.
  intros Hm Hk c. unfold bind. specialize (Hm c).
  destruct (m c) as [[a|e] c1]; simpl in Hm; [|done].
  specialize (Hk a c1). destruct Hm as [Hs Hb].
  destruct (k a c1) as [[[]|e] c2].
  - destruct Hk as (wr & Hp & Hpush). exists wr. by rewrite Hp, Hpush, Hs, Hb.
  - destruct Hk as [Hs' Hb']. split; congruence.
Qed.

Lemma process_chat_post (self : ChatService) (chat : Locator) :
  chat_post page (process_chat page self chat).
Proof.
  unfold process_chat.
  do 7 (apply chat_post_bind; [intros c; apply on_page_untouched|intros _]).
  intros c. destruct (read_then_push c) as (c' & Heq & Hp & Hpush).
  unfold _collect_active_chat_message in Heq. rewrite Heq.
  by exists (page_state c).
Qed.

Lemma for_each_chat_foldl (self : ChatService) (unread_chats : list Locator)
    (c : Cycle World) :
  for_each_chat page self unread_chats c
  = foldl (fun c chat => (process_chat page self chat c).2) c unread_chats.
Proof.
  revert c. induction unread_chats as [|chat rest IH]; intros c; simpl; [done|].
  destruct (process_chat page self chat c) as [[[]|e] c']; apply IH.
Qed.


End WithPage.


End ScanFacts.

(** ** The AI query path *)

Module MainFacts.
Import PyStr Main.

Section WithBackend.
Context {World : Type}.
Context (generate_content :
           string -> string -> string -> World -> completion * World).

(** C9: [call_ai] always returns a reply and never raises.  Without a
    client (no key, or an empty one) the reply is the fixed configuration
    error and the backend plays no part: the page of the call is returned
    as it was, whatever the backend.  When the backend fails, the reply is
    the rate-limit apology if the text of the failure contains "429", and
    the generic error reply (which differs from the apology) otherwise. *)
Theorem call_ai_always_replies (ai_client : option string) (query : string)
    (w : World) :
  exists (reply : string) (w' : World),
    call_ai generate_content ai_client query w = (Ok reply, w')
    /\ (ai_client = None ->
        reply = missing_key_reply /\ w' = w
        /\ forall other_backend,
             call_ai other_backend None query w = (Ok missing_key_reply, w))
    /\ (forall (client error_text : string),
          ai_client = Some client ->
          (generate_content client "gemini-2.5-flash-lite" query w).1
            = Failed error_text ->
          (contains "429" error_text = true -> reply = rate_limit_reply)
          /\ (contains "429" error_text = false ->
              reply = generic_error_reply error_text))
    /\ (forall (client text : string),
          ai_client = Some client ->
          (generate_content client "gemini-2.5-flash-lite" query w).1
            = Completed (Some text) ->
          text <> "" -> reply = text)
    /\ make_ai_client None = None /\ make_ai_client (Some "") = None
    /\ (forall error_text : string,
          rate_limit_reply <> generic_error_reply error_text
          /\ missing_key_reply <> generic_error_reply error_text)
    /\ rate_limit_reply <> missing_key_reply.
Proof.
  assert (forall error_text : string,
            rate_limit_reply <> generic_error_reply error_text
            /\ missing_key_reply <> generic_error_reply error_text) as Hdiff.
  { intros error_text. split; intros H; vm_compute in H; discriminate H. }
  assert (rate_limit_reply <> missing_key_reply) as Hdiff'.
  { intros H; vm_compute in H; discriminate H. }
  unfold call_ai. destruct ai_client as [client|].
  - destruct (generate_content client "gemini-2.5-flash-lite" query w)
      as [[text|error_text] w'] eqn:Hg; cbn [fst snd].
    + eexists _, _. split; [reflexivity|]. split; [done|].
      split; [intros ?? [= <-]; rewrite Hg; by intros [=]|]. split; [|done].
      intros ? text0 [= <-]. rewrite Hg. intros [= ->] Hne. by destruct text0.
    + exists (if contains "429" error_text then rate_limit_reply
              else generic_error_reply error_text), w'.
      split; [by destruct (contains "429" error_text)|]. split; [done|].
      split; [|split; [intros ?? [= <-]; rewrite Hg; by intros [=]|done]].
      intros ?? [= <-]. rewrite Hg. intros [= <-]. split; by intros ->.
  - eexists _, _. split; [reflexivity|].
    split; [done|]. split; [by intros ?? [=]|]. split; [by intros ?? [=]|done].
Qed.

End WithBackend.

End MainFacts.

(** ** The login wait *)

Module SessionFacts.
Import Session.

Section WithPage.
Context {World : Type} (page : Page World) (self : SessionManager).






Section NeverAuthenticated.
(** The marker never shows: its probe times out, within its timeout. *)
Hypothesis marker_never :
  forall w : World, exists (msg : string) (w' : World),
    wait_for_selector page CHAT_LIST_READY_SELECTOR 3000 w
      = (Raise (PlaywrightTimeoutError msg), w')
    /\ (time page w <= time page w' <= time page w + 3000)%Z.
(** The probe for the QR code finds it or times out, within its timeout. *)
Hypothesis qr_probe :
  forall w : World, exists (r : outcome unit) (w' : World),
    wait_for_selector page QR_CODE_SELECTOR 1000 w = (r, w')
    /\ (r = Ok tt \/ exists msg, r = Raise (PlaywrightTimeoutError msg))
    /\ (time page w <= time page w' <= time page w + 1000)%Z.
(** A sleep lasts as long as asked. *)
Hypothesis sleep_lasts :
  forall w : World,
    time page (sleep page (_poll_interval self) w)
    = (time page w + _poll_interval self)%Z.
Hypothesis poll_interval_pos : (0 < _poll_interval self)%Z.



End NeverAuthenticated.


End WithPage.



End SessionFacts.

(** * Further properties *)

(** ** More on strings *)

Module PyStrMore.
Import PyStr PyStrFacts Texts.

Lemma app_assoc_s (a b c : string) : (a +:+ b) +:+ c = a +:+ (b +:+ c).
Proof. induction a as [|x a IH]; [done|]. by rewrite !app_cons, IH. Qed.

Lemma app_empty_r (a : string) : a +:+ "" = a.
Proof. induction a as [|x a IH]; [done|]. by rewrite app_cons, IH. Qed.

Lemma isspace_lower_char (c : ascii) : isspace (lower_char c) = isspace c.
Proof. by destruct c as [[] [] [] [] [] [] [] []]. Qed.

Lemma lstrip_all_blank (s : string) : all_blank s = true -> lstrip s = "".
Proof.
  induction s as [|c s IH]; simpl; [done|].
  destruct (isspace c); simpl; [exact IH|done].
Qed.

Lemma lstrip_empty (s : string) : lstrip s = "" -> all_blank s = true.
Proof.
  induction s as [|c s IH]; simpl; [done|].
  destruct (isspace c); simpl; [exact IH|done].
Qed.

Lemma rstrip_all_blank (s : string) : all_blank s = true -> rstrip s = "".
Proof.
  induction s as [|c s IH]; simpl; [done|].
  destruct (isspace c); simpl; [|done]. intros H. by rewrite (IH H).
Qed.

(** A text strips to nothing exactly when it is blank. *)
Lemma strip_empty_iff (s : string) : strip s = "" <-> all_blank s = true.
Proof.
  split.
  - intros Hs. destruct (lstrip_head s) as [Hl|(c & r & Hl & Hc)].
    + by apply lstrip_empty.
    + unfold strip in Hs. by rewrite Hl, rstrip_head in Hs.
  - intros Hb. unfold strip. by rewrite lstrip_all_blank.
Qed.

Lemma lstrip_app (x t : string) :
  lstrip (x +:+ t) = if all_blank x then lstrip t else lstrip x +:+ t.
Proof.
  induction x as [|c x IH]; [done|]. rewrite app_cons. simpl.
  destruct (isspace c); simpl; [exact IH|by rewrite app_cons].
Qed.

Lemma rstrip_app_blank (x t : string) :
  all_blank t = true -> rstrip (x +:+ t) = rstrip x.
Proof.
  intros Ht. induction x as [|c x IH].
  - rewrite app_empty_l. by apply rstrip_all_blank.
  - rewrite app_cons. simpl. by rewrite IH.
Qed.

Lemma lstrip_idemp (s : string) : lstrip (lstrip s) = lstrip s.
Proof.
  destruct (lstrip_head s) as [->|(c & r & -> & Hc)]; [done|].
  simpl. by rewrite Hc.
Qed.

Lemma rstrip_idemp (s : string) : rstrip (rstrip s) = rstrip s.
Proof.
  induction s as [|c s IH]; simpl; [done|].
  destruct (isspace c && is_empty (rstrip s)) eqn:Hc; [done|].
  simpl. by rewrite IH, Hc.
Qed.

(** Stripping on the right leaves a first character that is no blank. *)
Lemma lstrip_rstrip_head (c : ascii) (r : string) :
  isspace c = false -> lstrip (rstrip (String c r)) = rstrip (String c r).
Proof. intros Hc. rewrite rstrip_head by done. simpl. by rewrite Hc. Qed.

Lemma strip_idemp (s : string) : strip (strip s) = strip s.
Proof.
  unfold strip. destruct (lstrip_head s) as [->|(c & r & -> & Hc)]; [done|].
  by rewrite lstrip_rstrip_head, rstrip_idemp.
Qed.

(** Blanks before and after a text do not change what it strips to. *)
Lemma strip_padded (lead s trail : string) :
  all_blank lead = true -> all_blank trail = true ->
  strip (lead +:+ s +:+ trail) = strip s.
Proof.
  intros Hl Ht. unfold strip. rewrite lstrip_app, Hl, lstrip_app.
  destruct (all_blank s) eqn:Hs.
  - by rewrite (lstrip_all_blank trail), (lstrip_all_blank s).
  - by rewrite rstrip_app_blank.
Qed.

Lemma lower_app (a b : string) : lower (a +:+ b) = lower a +:+ lower b.
Proof. induction a as [|x a IH]; [done|]. rewrite app_cons. simpl. by rewrite IH. Qed.

Lemma lstrip_lower (s : string) : lstrip (lower s) = lower (lstrip s).
Proof.
  induction s as [|c s IH]; simpl; [done|].
  rewrite isspace_lower_char. by destruct (isspace c).
Qed.

Lemma rstrip_lower (s : string) : rstrip (lower s) = lower (rstrip s).
Proof.
  induction s as [|c s IH]; simpl; [done|].
  rewrite isspace_lower_char, IH.
  assert (is_empty (lower (rstrip s)) = is_empty (rstrip s)) as ->
    by by destruct (rstrip s).
  by destruct (isspace c && is_empty (rstrip s)).
Qed.

Lemma strip_lower (s : string) : strip (lower s) = lower (strip s).
Proof. unfold strip. by rewrite lstrip_lower, rstrip_lower. Qed.

End PyStrMore.

(** ** More on the parser *)

Module ParserExtras.
Import PyStr PyStrFacts PyStrMore Texts Filters FiltersFacts.

#[local] Arguments Ascii.eqb : simpl never.

Lemma blank_free_lower (s : string) : blank_free (lower s) = blank_free s.
Proof.
  induction s as [|c s IH]; simpl; [done|]. by rewrite isspace_lower_char, IH.
Qed.

Lemma rstrip_app_blank_free (w t : string) :
  blank_free w = true -> rstrip (w +:+ t) = w +:+ rstrip t.
Proof.
  induction w as [|c w IH]; [done|]. simpl.
  intros [Hc Hw]%andb_true_iff. apply negb_true_iff in Hc.
  rewrite !app_cons. simpl. by rewrite Hc, IH.
Qed.

Lemma at_word_end_rstrip (t : string) :
  at_word_end t = true -> at_word_end (rstrip t) = true.
Proof.
  destruct t as [|c t]; [done|]. simpl. intros Hc. rewrite Hc. simpl.
  by destruct (is_empty (rstrip t)).
Qed.

(** A blank-free word in front of a word end is the first token. *)
Lemma tokens_word (c : ascii) (w t : string) :
  blank_free (String c w) = true -> at_word_end t = true ->
  tokens (String c w +:+ t) = String c w :: tokens t.
Proof.
  revert c. induction w as [|d w IH]; intros c Hb Ht.
  - rewrite app_cons, app_empty_l. simpl in *.
    apply andb_true_iff in Hb as [Hc%negb_true_iff _]. by rewrite Hc, Ht.
  - simpl in Hb. apply andb_true_iff in Hb as [Hc%negb_true_iff Hb].
    rewrite app_cons. cbn [tokens]. rewrite Hc, (IH d Hb Ht).
    rewrite app_cons. simpl.
    apply andb_true_iff in Hb as [Hd%negb_true_iff _]. by rewrite Hd.
Qed.

(** [parse] reads the text only, and of the text only what the part after
    the prefix strips to. *)
Lemma parse_same_payload (self : MessageFilter) (m m' : ChatMessage)
    (X X' : string) :
  text m = _prefix self +:+ X -> text m' = _prefix self +:+ X' ->
  strip X = strip X' -> parse self m = parse self m'.
Proof.
  intros Hm Hm' Hs. unfold parse.
  by rewrite Hm, Hm', !startswith_app, !slice_from_app, Hs.
Qed.

(** X1: [parse] never raises, and it ignores a message (returns none)
    exactly when the text does not start with the prefix or when nothing
    but whitespace follows the prefix. *)
Theorem parse_none_iff (self : MessageFilter) (message : ChatMessage) :
  (exists r : option ParsedMessage, parse self message = Ok r)
  /\ (parse self message = Ok None <->
      startswith (_prefix self) (text message) = false
      \/ all_blank (slice_from (String.length (_prefix self)) (text message))
         = true).
Proof.
  rewrite parse_parse_reference. split; [by eexists|].
  unfold parse_reference. rewrite strip_prefix_startswith.
  destruct (startswith (_prefix self) (text message)); simpl;
    [|split; [by left|done]].
  set (rest := slice_from _ _). rewrite <- (strip_empty_iff rest).
  destruct (strip_head rest) as [Hs|(c & r & Hs & Hc)]; rewrite Hs.
  - split; [by right|done].
  - destruct (tokens (String c r)) as [|[|[[] [] [] [] [] [] [] []] ?] ?];
      simpl; (split; [done|by intros [|]]).
Qed.

(** X2: blanks between the prefix and the payload, and blanks after the
    payload, make no difference to [parse]; neither do the other fields
    of the message. *)
Theorem parse_ignores_padding (self : MessageFilter)
    (lead rest trail : string) (padded plain : ChatMessage) :
  all_blank lead = true -> all_blank trail = true ->
  text padded = _prefix self +:+ lead +:+ rest +:+ trail ->
  text plain = _prefix self +:+ rest ->
  parse self padded = parse self plain.
Proof.
  intros Hl Ht Hp Hq. apply (parse_same_payload self _ _ _ _ Hp Hq).
  by apply strip_padded.
Qed.

Lemma parse_ignores_padding_witness :
  parse {| _prefix := "/bot" |}
    {| text := "/bot   -ping  now  "; chat_name := "Ana"; sender := Some "Ana";
       from_me := true |}
  = parse {| _prefix := "/bot" |} (ChatMessage_new "/bot-ping  now" false).
Proof.
  apply (parse_ignores_padding {| _prefix := "/bot" |} "   " "-ping  now" "  ");
    reflexivity.
Defined.

(** X3: what [parse] returns is well formed.  A command has a command
    record and no query, its name holds no whitespace and its arguments
    are non-empty and hold no whitespace; a query has no command record,
    and its value is non-empty, has no blank at either end and does not
    start with "-". *)
Theorem parse_well_formed (self : MessageFilter) (message : ChatMessage)
    (pm : ParsedMessage) :
  parse self message = Ok (Some pm) ->
  (is_command pm = true
   /\ query pm = None
   /\ exists cmd : ParsedCommand,
        command pm = Some cmd
        /\ blank_free (name cmd) = true
        /\ Forall (fun a => a <> "" /\ blank_free a = true) (args cmd))
  \/ (is_command pm = false
      /\ command pm = None
      /\ exists q : string,
           query pm = Some q /\ q <> "" /\ strip q = q
           /\ startswith "-" q = false).
Proof.
  rewrite parse_parse_reference. unfold parse_reference.
  destruct (strip_prefix _ _) as [rest|]; simpl; [|done].
  destruct (strip_head rest) as [Hs|(c & r & Hs & Hc)]; rewrite Hs; [done|].
  pose proof (tokens_blank_free (String c r)) as Htok.
  destruct (tokens_head c r Hc) as (t & ts & Heq). rewrite Heq in *.
  inversion Htok as [|?? [_ Hb] Hts]; subst.
  assert (strip (String c r) = String c r) as Hidem.
  { rewrite <- Hs. apply strip_idemp. }
  destruct (Ascii.eqb "-" c) eqn:Hd.
  - apply Ascii.eqb_eq in Hd as <-. simpl. intros [= <-]. left. simpl.
    split; [done|]. split; [done|]. eexists. split; [done|]. simpl.
    split; [|done]. rewrite blank_free_lower. by simpl in Hb.
  - assert (to_message <$> match String c t :: ts with
                           | String "-"%char nm :: rest_tokens =>
                               Some (CommandVariant (lower nm) rest_tokens)
                           | _ => Some (QueryVariant (String c r))
                           end
            = Some (to_message (QueryVariant (String c r)))) as ->.
    { destruct c as [[] [] [] [] [] [] [] []]; try done. }
    intros [= <-]. right. simpl. split; [done|]. split; [done|].
    exists (String c r). split; [done|]. split; [done|]. split; [done|].
    by rewrite Hd.
Qed.

Lemma parse_well_formed_witness :
  (true = true /\ (None : option string) = None
   /\ exists cmd : ParsedCommand,
        Some {| name := "say"; args := ["hi"; "there"] |} = Some cmd
        /\ blank_free (name cmd) = true
        /\ Forall (fun a => a <> "" /\ blank_free a = true) (args cmd))
  \/ (true = false /\ Some {| name := "say"; args := ["hi"; "there"] |} = None
      /\ exists q : string,
           (None : option string) = Some q /\ q <> "" /\ strip q = q
           /\ startswith "-" q = false).
Proof.
  apply (parse_well_formed {| _prefix := "/bot" |}
           (ChatMessage_new "/bot -SAY hi   there" false)
           {| is_command := true;
              command := Some {| name := "say"; args := ["hi"; "there"] |};
              query := None |}).
  reflexivity.
Defined.

(** X4: command names are matched without regard to case.  Two texts
    that differ only in the case of the letters of the command name are
    parsed to the same command, whose name is the lower-cased word and
    whose arguments are the tokens after it.  The prefix itself is
    compared exactly: "/BOT -ping" is ignored under the prefix "/bot". *)
Theorem command_name_ignores_case (self : MessageFilter)
    (w w' tail : string) (m m' : ChatMessage) :
  blank_free w = true -> blank_free w' = true -> lower w = lower w' ->
  at_word_end tail = true ->
  text m = _prefix self +:+ " -" +:+ w +:+ tail ->
  text m' = _prefix self +:+ " -" +:+ w' +:+ tail ->
  parse self m = parse self m'
  /\ parse self m
     = Ok (Some {| is_command := true;
                   command := Some {| name := lower w;
                                      args := split (strip tail) |};
                   query := None |})
  /\ parse {| _prefix := "/bot" |} (ChatMessage_new "/BOT -ping" false) = Ok None.
Proof.
  intros Hw Hw' Hlow Htail Hm Hm'.
  assert (forall (v : string) (mv : ChatMessage),
            blank_free v = true ->
            text mv = _prefix self +:+ " -" +:+ v +:+ tail ->
            parse self mv
            = Ok (Some {| is_command := true;
                          command := Some {| name := lower v;
                                             args := split (strip tail) |};
                          query := None |})) as Hgen.
  { intros v mv Hv Hmv.
    assert (strip (" -" +:+ v +:+ tail) = String "-" v +:+ rstrip tail) as Hs.
    { unfold strip. rewrite !app_cons, app_empty_l. cbn [lstrip isspace].
      rewrite <- app_cons, rstrip_app_blank_free; [done|]. simpl. by rewrite Hv. }
    assert (at_word_end (rstrip tail) = true) as He by by apply at_word_end_rstrip.
    assert (tokens (String "-" v +:+ rstrip tail)
            = String "-" v :: tokens (rstrip tail)) as Ht.
    { apply tokens_word; [|done]. simpl. by rewrite Hv. }
    assert (tokens (rstrip tail) = tokens (strip tail)) as Hargs.
    { unfold strip. destruct tail as [|d tail]; [done|]. simpl in Htail.
      destruct (lstrip_head (String d tail)) as [Hl|(c & r & Hl & Hc)].
      - rewrite Hl. apply lstrip_empty in Hl.
        by rewrite (rstrip_all_blank _ Hl).
      - rewrite Hl.
        assert (forall x, tokens (rstrip x) = tokens (rstrip (lstrip x))) as Hx.
        { clear. induction x as [|a x IH]; [done|]. cbn [lstrip].
          destruct (isspace a) eqn:Ha; [|done]. rewrite <- IH. simpl. rewrite Ha.
          simpl. destruct (is_empty (rstrip x)) eqn:Hx; [|simpl; by rewrite Ha].
          apply is_empty_true in Hx. by rewrite Hx. }
        by rewrite Hx, Hl. }
    unfold parse. rewrite Hmv, startswith_app, slice_from_app, Hs.
    rewrite app_cons. cbn [is_empty negb]. rewrite <- app_cons, split_tokens, Ht.
    simpl. by rewrite drop_0, split_tokens, Hargs. }
  split; [|split; [by apply Hgen|reflexivity]].
  rewrite (Hgen w m Hw Hm), (Hgen w' m' Hw' Hm'). by rewrite Hlow.
Qed.

Lemma command_name_ignores_case_witness :
  parse {| _prefix := "/bot" |} (ChatMessage_new "/bot -Ping now" false)
  = parse {| _prefix := "/bot" |} (ChatMessage_new "/bot -PING now" false).
Proof.
  apply (command_name_ignores_case {| _prefix := "/bot" |} "Ping" "PING" " now");
    reflexivity.
Defined.

Lemma tokens_single (x : string) :
  x <> "" -> blank_free x = true -> tokens x = [x].
Proof.
  destruct x as [|c w]; [done|]. intros _ Hb.
  rewrite <- (app_empty_r (String c w)) at 1. by rewrite tokens_word.
Qed.

(** Words separated by single blanks: nothing to strip on the right, and
    the tokens are the words. *)
Lemma join_words (ws : list string) :
  Forall (fun a => a <> "" /\ blank_free a = true) ws ->
  rstrip (join " " ws) = join " " ws
  /\ tokens (join " " ws) = ws
  /\ (ws <> [] -> join " " ws <> "").
Proof.
  induction 1 as [|x ws [Hne Hb] Hws (IH1 & IH2 & IH3)]; [done|].
  destruct ws as [|y ws].
  - simpl. split; [|split; [by apply tokens_single|done]].
    rewrite <- (app_empty_r x) at 1. by rewrite rstrip_app_blank_free, app_empty_r.
  - change (join " " (x :: y :: ws)) with (x +:+ " " +:+ join " " (y :: ws)).
    assert (join " " (y :: ws) <> "") as HJ by by apply IH3.
    set (J := join " " (y :: ws)) in *.
    split; [|split].
    + rewrite rstrip_app_blank_free by done. rewrite app_cons, app_empty_l.
      simpl. rewrite IH1. by destruct J.
    + destruct x as [|c w]; [done|]. rewrite tokens_word; [|done|done].
      rewrite app_cons, app_empty_l. simpl. by rewrite IH2.
    + intros _. by destruct x.
Qed.

(** X24: what is typed in the usual way is parsed back.  The text made of
    the prefix, a blank, "-" and a name, and arguments separated by single
    blanks is parsed to the command with the lower-cased name and exactly
    these arguments, provided name and arguments hold no whitespace and no
    argument is empty; and the prefix, a blank and a query that is not
    empty, has no blank at either end and does not start with "-" is
    parsed to that query. *)
Theorem parse_round_trip (self : MessageFilter) (m : ChatMessage) :
  (forall (name : string) (args : list string),
     blank_free name = true ->
     Forall (fun a => a <> "" /\ blank_free a = true) args ->
     text m = command_text (_prefix self) name args ->
     parse self m
     = Ok (Some {| is_command := true;
                   command := Some {| Filters.name := lower name;
                                      Filters.args := args |};
                   query := None |}))
  /\ (forall q : string,
        q <> "" -> strip q = q -> startswith "-" q = false ->
        text m = query_text (_prefix self) q ->
        parse self m
        = Ok (Some {| is_command := false; command := None;
                      query := Some q |})).
Proof.
  split.
  - intros name args Hn Ha Hm.
    assert (Forall (fun a => a <> "" /\ blank_free a = true)
              (("-" +:+ name) :: args)) as Hws.
    { constructor; [|done]. rewrite app_cons, app_empty_l. simpl.
      by rewrite Hn. }
    destruct (join_words _ Hws) as (Hr & Ht & _).
    set (J := join " " (("-" +:+ name) :: args)) in *.
    assert (exists r, J = String "-" r) as [r HJ].
    { subst J. destruct args; simpl; rewrite !app_cons, ?app_empty_l;
        by eexists. }
    assert (strip (" " +:+ J) = String "-" r) as Hs.
    { rewrite app_cons, app_empty_l. unfold strip. cbn [lstrip isspace].
      rewrite HJ in *. cbn [lstrip isspace]. exact Hr. }
    destruct (parse_prefixed self m (" " +:+ J) "-" r Hm Hs eq_refl)
      as (t & ts & Hsplit & ->).
    rewrite split_tokens, <- HJ, Ht in Hsplit.
    rewrite app_cons, app_empty_l in Hsplit. by injection Hsplit as <- <-.
  - intros q Hne Hq Hd Hm.
    destruct (strip_head q) as [Hs|(c & r & Hs & Hc)]; [congruence|].
    rewrite Hq in Hs. subst q.
    assert (strip (" " +:+ String c r) = String c r) as Hs.
    { rewrite app_cons, app_empty_l. unfold strip in *. by cbn [lstrip isspace]. }
    destruct (parse_prefixed self m (" " +:+ String c r) c r Hm Hs Hc)
      as (t & ts & _ & ->).
    simpl in Hd. rewrite andb_true_r in Hd. by rewrite Hd.
Qed.

Lemma parse_round_trip_witness :
  parse {| _prefix := "/bot" |} (ChatMessage_new "/bot -Say hi there" false)
  = Ok (Some {| is_command := true;
                command := Some {| name := "say"; args := ["hi"; "there"] |};
                query := None |}).
Proof.
  destruct (parse_round_trip {| _prefix := "/bot" |}
              (ChatMessage_new "/bot -Say hi there" false)) as [Hc _].
  apply (Hc "Say" ["hi"; "there"]); [reflexivity| |reflexivity].
  constructor; [by split|]. constructor; [by split|]. constructor.
Defined.

End ParserExtras.

(** ** More on the dispatcher *)

Module HandlerExtras.
Import PyStr PyStrFacts Handlers.

#[local] Arguments Ascii.eqb : simpl never.

Lemma startswith_head_ne (c d : ascii) (p s : string) :
  c <> d -> startswith (String c p) (String d s) = false.
Proof.
  intros Hne. simpl. destruct (Ascii.eqb c d) eqn:He; [|done].
  by apply Ascii.eqb_eq in He.
Qed.

(** The replies of the handler of [run_bot] are never empty. *)
Lemma handle_default_nonempty (prefix : string)
    (command : Filters.ParsedCommand) (reply : string) :
  handle (CommandHandler_init prefix) command = Ok reply -> reply <> "".
Proof.
  unfold handle. destruct (decide (Filters.name command = "help")); [by intros [= <-]|].
  destruct (decide (_ ∈ _)) as [Hin|Hin]; [|by intros [= <-]].
  simpl in *. apply elem_of_dom in Hin as [v Hv]. rewrite Hv.
  apply lookup_singleton_Some in Hv as [_ <-]. by intros [= <-].
Qed.

Lemma handle_never_raises (self : CommandHandler)
    (command : Filters.ParsedCommand) :
  exists reply : string, handle self command = Ok reply.
Proof.
  unfold handle. destruct (decide (Filters.name command = "help")); [by eexists|].
  destruct (decide (_ ∈ _)) as [Hin|Hin]; [|by eexists].
  apply elem_of_dom in Hin as [v Hv]. rewrite Hv. by eexists.
Qed.

(** X5: the dispatcher does not answer itself.  When the prefix starts
    with a character other than "A" and "U" and no canned reply starts
    with the prefix, no reply of [handle], read back as a message, is
    addressed to the bot: [parse] ignores it. *)
Theorem replies_not_addressed_to_bot (self : CommandHandler) (c : ascii)
    (p' : string) (command : Filters.ParsedCommand) (reply : string)
    (message : ChatMessage) :
  _prefix self = String c p' -> c <> "A"%char -> c <> "U"%char ->
  (forall k v : string,
     _commands self !! k = Some v -> startswith (_prefix self) v = false) ->
  handle self command = Ok reply ->
  text message = reply ->
  Filters.parse {| Filters._prefix := _prefix self |} message = Ok None.
Proof.
  intros Hp HA HU Hcanned Hh Ht.
  assert (startswith (_prefix self) (text message) = false) as Hno.
  { rewrite Ht. unfold handle in Hh.
    destruct (decide (Filters.name command = "help")).
    - injection Hh as <-. unfold _help_message. rewrite Hp, app_cons.
      by apply startswith_head_ne.
    - destruct (decide (_ ∈ _)) as [Hin|Hin].
      + apply elem_of_dom in Hin as [v Hv]. rewrite Hv in Hh.
        injection Hh as <-. by apply (Hcanned _ _ Hv).
      + injection Hh as <-. rewrite Hp, app_cons. by apply startswith_head_ne. }
  unfold Filters.parse. simpl. by rewrite Hno.
Qed.

Lemma replies_not_addressed_to_bot_witness :
  Filters.parse {| Filters._prefix := "/bot" |}
    (ChatMessage_new "Unknown command 'bot'. Try '/bot help'." true) = Ok None.
Proof.
  apply (replies_not_addressed_to_bot (CommandHandler_init "/bot") "/" "bot"
           {| Filters.name := "bot"; Filters.args := [] |}
           "Unknown command 'bot'. Try '/bot help'.");
    try reflexivity; try discriminate.
  intros k v Hv. simpl in Hv. apply lookup_singleton_Some in Hv as [_ <-].
  reflexivity.
Defined.

End HandlerExtras.

(** ** Sending *)

Module SenderExtras.
Import Chat Sender.

Lemma is_timeout_true (e : exn) :
  is_timeout e = true <-> exists msg : string, e = PlaywrightTimeoutError msg.
Proof. destruct e; simpl; split; try done; try (by intros [? [=]]); by eexists. Qed.

Section WithEditor.
Context {World Element : Type} (editor : Editor World Element).

(** X6: [send_message] answers false in two cases only: in simulation
    mode, where the page is not touched at all, and when the probe for the
    input box times out, where nothing is filled, typed, pressed or
    clicked after the probe.  An input box that was found never leads to
    false. *)
Theorem send_message_false (self : ChatService) (text : string) (w w' : World) :
  send_message editor self text w = (Ok false, w') <->
  (_simulation_mode self = true /\ w' = w)
  \/ (_simulation_mode self = false
      /\ exists msg : string,
           wait_for_element editor MESSAGE_INPUT_SELECTOR 5000 w
           = (Raise (PlaywrightTimeoutError msg), w')).
Proof.
  unfold send_message. destruct (_simulation_mode self).
  { split; [intros [= <-]; by left|by intros [[_ ->]|[[=] _]]]. }
  destruct (wait_for_element editor MESSAGE_INPUT_SELECTOR 5000 w)
    as [[input|e] w1].
  - split; [|by intros [[[=] _]|[_ [? [=]]]]].
    unfold bind, try_except, ret.
    destruct (fill editor input "" w1) as [[?|?] w2]; [|done].
    destruct (type_text editor input text w2) as [[?|?] w3]; [|done].
    destruct (wait_for_element editor SEND_BUTTON_SELECTOR 2000 w3)
      as [[btn|e] w4].
    + destruct (click_element editor btn w4) as [[?|e] w5]; [done|].
      destruct (is_timeout e); [|done].
      by destruct (press editor input "Enter" w5) as [[?|?] ?].
    + destruct (is_timeout e); [|done].
      by destruct (press editor input "Enter" w4) as [[?|?] ?].
  - destruct (is_timeout e) eqn:He.
    + apply is_timeout_true in He as [msg ->].
      split; [intros [= <-]; right; eauto|].
      by intros [[[=] _]|[_ [? [= _ <-]]]].
    + split; [done|]. intros [[[=] _]|[_ [msg [= -> _]]]]. done.
Qed.

(** X7: [send_message] answers true exactly when, outside simulation
    mode, the input box was found, emptied and typed into, and then either
    the send button was found and clicked, or the wait for the button or
    the click itself timed out and Enter was pressed in the input box. *)
Theorem send_message_true (self : ChatService) (text : string) (w w' : World) :
  send_message editor self text w = (Ok true, w') <->
  _simulation_mode self = false
  /\ exists (input : Element) (w1 w2 w3 : World),
       wait_for_element editor MESSAGE_INPUT_SELECTOR 5000 w = (Ok input, w1)
       /\ fill editor input "" w1 = (Ok tt, w2)
       /\ type_text editor input text w2 = (Ok tt, w3)
       /\ ((exists (btn : Element) (w4 : World),
              wait_for_element editor SEND_BUTTON_SELECTOR 2000 w3 = (Ok btn, w4)
              /\ click_element editor btn w4 = (Ok tt, w'))
           \/ (exists (msg : string) (w5 : World),
                 (wait_for_element editor SEND_BUTTON_SELECTOR 2000 w3
                  = (Raise (PlaywrightTimeoutError msg), w5)
                  \/ exists (btn : Element) (w4 : World),
                       wait_for_element editor SEND_BUTTON_SELECTOR 2000 w3
                       = (Ok btn, w4)
                       /\ click_element editor btn w4
                          = (Raise (PlaywrightTimeoutError msg), w5))
                 /\ press editor input "Enter" w5 = (Ok tt, w'))).
Proof.
  unfold send_message, bind, try_except, ret. split.
  - intros H. destruct (_simulation_mode self) eqn:Hsim; [done|].
    destruct (wait_for_element editor MESSAGE_INPUT_SELECTOR 5000 w)
      as [[input|e] w1] eqn:Hw; [|by destruct (is_timeout e)].
    destruct (fill editor input "" w1) as [[[]|?] w2] eqn:Hf; [|done].
    destruct (type_text editor input text w2) as [[[]|?] w3] eqn:Ht; [|done].
    split; [done|]. exists input, w1, w2, w3. split_and!; [done..|].
    destruct (wait_for_element editor SEND_BUTTON_SELECTOR 2000 w3)
      as [[btn|e] w4] eqn:Hb.
    + destruct (click_element editor btn w4) as [[[]|e] w5] eqn:Hc.
      * injection H as <-. left. by exists btn, w4.
      * destruct (is_timeout e) eqn:He; [|done].
        apply is_timeout_true in He as [msg ->].
        destruct (press editor input "Enter" w5) as [[[]|?] w6] eqn:Hp; [|done].
        injection H as <-. right. exists msg, w5.
        split; [right; by exists btn, w4|done].
    + destruct (is_timeout e) eqn:He; [|done].
      apply is_timeout_true in He as [msg ->].
      destruct (press editor input "Enter" w4) as [[[]|?] w6] eqn:Hp; [|done].
      injection H as <-. right. exists msg, w4. split; [by left|done].
  - intros (-> & input & w1 & w2 & w3 & -> & -> & -> & Hend).
    destruct Hend as [(btn & w4 & -> & ->)
                     |(msg & w5 & [->|(btn & w4 & -> & ->)] & Hp)];
      [done|simpl; by rewrite Hp..].
Qed.

End WithEditor.

End SenderExtras.

(** ** More on the scan cycle *)

Module ScanExtras.
Import PyStr PyStrMore Texts Chat DedupFacts ReaderFacts ScanFacts.

Lemma feed_snoc_free (reads : list (string * bool)) (seen : gmap string string)
    (bucket : list ChatMessage) :
  Forall (fun r => readable r.1) reads -> Forall bare_message bucket ->
  Forall bare_message (feed seen bucket reads).2.
Proof.
  revert seen bucket. induction reads as [|[t fm] reads IH];
    intros seen bucket Hr Hb; [done|].
  inversion Hr as [|?? Ht Hrs]; subst. rewrite feed_cons, push_if_new_spec.
  simpl. destruct (decide (seen !! "last" = Some t)); simpl; [by apply IH|].
  apply IH; [done|]. apply Forall_app. split; [done|].
  constructor; [|constructor]. by split.
Qed.

(** The cache after a run of reads: untouched when the bucket did not
    grow, else the old cache with the text of the last message of the
    bucket under "last". *)
Lemma feed_cache (reads : list (string * bool)) (seen : gmap string string)
    (bucket : list ChatMessage) :
  let r := feed seen bucket reads in
  (r.2 = bucket /\ r.1 = seen)
  \/ (exists m : ChatMessage,
        last r.2 = Some m /\ r.1 = <["last" := text m]> seen
        /\ length bucket < length r.2).
Proof.
  revert seen bucket. induction reads as [|[t fm] reads IH];
    intros seen bucket; [by left|].
  cbv zeta. rewrite feed_cons, push_if_new_spec. simpl.
  destruct (decide (seen !! "last" = Some t)); simpl; [apply IH|].
  right.
  destruct (IH (<["last" := t]> seen) (bucket ++ [ChatMessage_new t fm])%list)
    as [[-> ->]|(m & Hl & -> & Hlen)].
  - exists (ChatMessage_new t fm). rewrite last_snoc, length_app. simpl.
    split_and!; [done..|lia].
  - exists m. rewrite insert_insert_eq. rewrite length_app in Hlen.
    split_and!; [done..|lia].
Qed.

Section WithPage.
Context {World : Type} (page : Page World).

Lemma scan_text_selectors_some (last_bubble : Locator) (is_from_me : bool)
    (selectors : list string) (w : World) (t : string) (fm : bool) :
  scan_text_selectors page last_bubble is_from_me selectors w = Ok (Some (t, fm)) ->
  exists ts : string, text_candidate page last_bubble w ts = Ok (Some t).
Proof.
  induction selectors as [|ts rest IH]; simpl; [done|].
  destruct (text_candidate page last_bubble w ts) as [[t'|]|e] eqn:Hc; [|done..].
  intros [= <- _]. by exists ts.
Qed.

(** What [_last_message_text] reads is readable. *)
Lemma last_message_text_readable (w w' : World) (t : string) (fm : bool) :
  _last_message_text page w = (Ok (Some (t, fm)), w') -> readable t.
Proof.
  unfold _last_message_text, try_except, last_message_text_try, ret.
  destruct (resolve_container page w) as [[container|]|e]; [|done..].
  unfold read_last_bubble.
  destruct (count page _ _) as [cnt|e]; cbn [bind_outcome]; [|done].
  destruct (cnt =? 0)%nat; [done|].
  destruct (get_attribute page _ _ _) as [cls|e]; cbn [bind_outcome]; [|done].
  destruct (scan_text_selectors page _ _ _ _) as [[[t' fm']|]|e] eqn:Hscan;
    [|done..].
  intros [= -> -> _]. apply scan_text_selectors_some in Hscan as [ts Hts].
  apply (text_candidate_spec page) in Hts as (k & raw & _ & _ & -> & Hlen).
  split; [done|apply strip_idemp].
Qed.

(** One chat feeds the cache at most one readable text. *)
Lemma process_chat_feeds (self : ChatService) (chat : Locator) (c : Cycle World) :
  let c' := (process_chat page self chat c).2 in
  exists reads : list (string * bool),
    length reads <= 1 /\ Forall (fun r => readable r.1) reads
    /\ feed (last_seen c) (messages c) reads = (last_seen c', messages c').
Proof.
  pose proof (process_chat_post page self chat c) as Hpost. cbv zeta.
  destruct (process_chat page self chat c) as [[[]|e] c']; simpl.
  - destruct Hpost as (wr & _ & Hpush).
    destruct (_last_message_text page wr) as [[[[t fm]|]|e] w1] eqn:Hread;
      simpl in Hpush.
    + exists [(t, fm)]. split; [done|]. split.
      * constructor; [|constructor]. simpl.
        by apply (last_message_text_readable _ _ _ _ Hread).
      * unfold feed. simpl. rewrite Hpush. by destruct (_push_if_new _ _ _ _).
    + exists []. rewrite Hpush. split; [simpl; lia|done].
    + exists []. rewrite Hpush. split; [simpl; lia|done].
  - destruct Hpost as [-> ->]. exists []. split; [simpl; lia|done].
Qed.

Lemma feed_app (seen : gmap string string) (bucket : list ChatMessage)
    (r1 r2 : list (string * bool)) :
  feed seen bucket (r1 ++ r2)
  = feed (feed seen bucket r1).1 (feed seen bucket r1).2 r2.
Proof.
  unfold feed. rewrite foldl_app. by destruct (foldl _ _ r1).
Qed.

Lemma for_each_chat_feeds (self : ChatService) (chats : list Locator)
    (c : Cycle World) :
  let c' := for_each_chat page self chats c in
  exists reads : list (string * bool),
    length reads <= length chats /\ Forall (fun r => readable r.1) reads
    /\ feed (last_seen c) (messages c) reads = (last_seen c', messages c').
Proof.
  rewrite for_each_chat_foldl. revert c.
  induction chats as [|chat chats IH]; intros c;
    [exists []; split; [simpl; lia|done]|].
  cbv zeta. simpl.
  destruct (process_chat_feeds self chat c) as (r1 & Hl1 & Hr1 & Hf1).
  destruct (IH (process_chat page self chat c).2) as (r2 & Hl2 & Hr2 & Hf2).
  exists (r1 ++ r2)%list. rewrite length_app. split; [simpl; lia|].
  split; [by apply Forall_app|]. by rewrite feed_app, Hf1.
Qed.

(** A whole cycle is a run of at most one read per unread chat and one
    more, fed to the cache of the service into an empty bucket. *)
Lemma poll_new_messages_feeds (self self' : ChatService) (w w' : World)
    (msgs : list ChatMessage) :
  poll_new_messages page self w = (Ok msgs, (self', w')) ->
  exists (chats : list Locator) (w1 : World) (reads : list (string * bool)),
    _collect_unread_chats page w = (Ok chats, w1)
    /\ length reads <= length chats + 1
    /\ Forall (fun r => readable r.1) reads
    /\ feed (_last_seen self) [] reads = (_last_seen self', msgs)
    /\ _simulation_mode self' = _simulation_mode self
    /\ _read_timeout self' = _read_timeout self.
Proof.
  unfold poll_new_messages.
  destruct (_collect_unread_chats page w) as [[chats|e] w1]; [|done].
  set (c0 := {| page_state := w1; last_seen := _last_seen self; messages := [] |}).
  assert (for_each_chat page self chats c0
          = if is_nil chats then c0 else for_each_chat page self chats c0) as Hnil
    by by destruct chats.
  destruct (for_each_chat_feeds self chats c0) as (r1 & Hl1 & Hr1 & Hf1).
  set (c1 := for_each_chat page self chats c0) in *.
  assert ((if is_nil chats then _collect_active_chat_message page c0
           else _collect_active_chat_message page c1)
          = _collect_active_chat_message page c1) as Hsame.
  { destruct chats; [|done]. done. }
  intros H.
  assert (exists c2, _collect_active_chat_message page c1 = (Ok tt, c2)
                     /\ msgs = messages c2 /\ _last_seen self' = last_seen c2
                     /\ _simulation_mode self' = _simulation_mode self
                     /\ _read_timeout self' = _read_timeout self) as (c2 & Hc2 & -> & Hseen & Hsim & Hrt).
  { destruct (read_then_push page c1) as (c2 & Hc2 & _).
    exists c2. split; [done|].
    destruct chats; simpl in H; [change c1 with c0 in Hc2|]; rewrite Hc2 in H;
      simpl in H; by injection H as <- <- _. }
  destruct (read_then_push page c1) as (c2' & Hc2' & _ & Hpush).
  rewrite Hc2 in Hc2'. injection Hc2' as <-.
  exists chats, w1.
  destruct (_last_message_text page (page_state c1)) as [[[[t fm]|]|e] w2] eqn:Hread;
    simpl in Hpush.
  - exists (r1 ++ [(t, fm)])%list. split; [done|]. rewrite length_app. simpl.
    split; [lia|]. split.
    + apply Forall_app. split; [done|]. constructor; [|constructor]. simpl.
      by apply (last_message_text_readable _ _ _ _ Hread).
    + split; [|done]. rewrite feed_app. simpl in Hf1. rewrite Hf1. simpl.
      unfold feed. simpl. rewrite Hseen, Hpush. by destruct (_push_if_new _ _ _ _).
  - exists r1. split; [done|]. split; [lia|]. split; [done|]. split; [|done].
    simpl in Hf1. rewrite Hf1, Hseen. by injection Hpush as -> ->.
  - exists r1. split; [done|]. split; [lia|]. split; [done|]. split; [|done].
    simpl in Hf1. rewrite Hf1, Hseen. by injection Hpush as -> ->.
Qed.

Lemma feed_length (reads : list (string * bool)) (seen : gmap string string)
    (bucket : list ChatMessage) :
  length (feed seen bucket reads).2 <= length bucket + length reads.
Proof.
  revert seen bucket. induction reads as [|[t fm] reads IH];
    intros seen bucket; [simpl; lia|].
  rewrite feed_cons, push_if_new_spec. simpl.
  destruct (decide (seen !! "last" = Some t)); simpl.
  - specialize (IH seen bucket). lia.
  - specialize (IH (<["last" := t]> seen)
                  (bucket ++ [ChatMessage_new t fm])%list).
    rewrite length_app in IH. simpl in IH. lia.
Qed.

Lemma collect_unread_chats_timeout (w w1 : World) (msg : string) :
  wait_for_selector page UNREAD_CHAT_SELECTOR 2000 w
    = (Raise (PlaywrightTimeoutError msg), w1) ->
  _collect_unread_chats page w = (Ok [], w1).
Proof. intros H. unfold _collect_unread_chats, try_except, bind. by rewrite H. Qed.

Lemma collect_unread_chats_found (w w1 : World) (n : nat) :
  wait_for_selector page UNREAD_CHAT_SELECTOR 2000 w = (Ok tt, w1) ->
  count page (PageLocator UNREAD_CHAT_SELECTOR) w1 = Ok n ->
  _collect_unread_chats page w
  = (Ok (Nth (PageLocator UNREAD_CHAT_SELECTOR) <$> seq 0 n), w1).
Proof.
  intros H Hn. unfold _collect_unread_chats, try_except, bind, query, all.
  by rewrite H, Hn.
Qed.

Lemma poll_new_messages_returns (self : ChatService) (w w1 : World)
    (chats : list Locator) :
  _collect_unread_chats page w = (Ok chats, w1) ->
  exists (msgs : list ChatMessage) (st : ChatService * World),
    poll_new_messages page self w = (Ok msgs, st).
Proof.
  intros H. unfold poll_new_messages. rewrite H.
  destruct (is_nil chats).
  - destruct (read_then_push page
                {| page_state := w1; last_seen := _last_seen self; messages := [] |})
      as (c & -> & _). by eexists _, _.
  - destruct (read_then_push page
                (for_each_chat page self chats
                   {| page_state := w1; last_seen := _last_seen self;
                      messages := [] |})) as (c & -> & _). by eexists _, _.
Qed.

(** X8: every message a poll cycle returns is bare and readable: its text
    is longer than one character and has no blank at either end, and the
    chat name and the sender are never filled in. *)
Theorem poll_messages_bare (self self' : ChatService) (w w' : World)
    (msgs : list ChatMessage) :
  poll_new_messages page self w = (Ok msgs, (self', w')) ->
  Forall (fun m => 1 < String.length (text m) /\ strip (text m) = text m
                   /\ chat_name m = "" /\ sender m = None) msgs.
Proof.
  intros (chats & w1 & reads & _ & _ & Hr & Hf & _)%poll_new_messages_feeds.
  pose proof (feed_snoc_free reads (_last_seen self) [] Hr (Forall_nil_2 _)) as Hb.
  rewrite Hf in Hb. simpl in Hb. eapply Forall_impl; [exact Hb|].
  by intros m [[??] [??]].
Qed.

(** X9: what a poll cycle does to the cache.  When the cycle returns no
    message the cache is as before; otherwise it is the old cache with the
    text of the last returned message under "last".  Within the returned
    messages no two neighbours carry the same text, and the first one
    differs from the text cached before.  The settings of the service are
    kept. *)
Theorem poll_cache_follows_messages (self self' : ChatService) (w w' : World)
    (msgs : list ChatMessage) :
  poll_new_messages page self w = (Ok msgs, (self', w')) ->
  (msgs = [] -> _last_seen self' = _last_seen self)
  /\ (forall m : ChatMessage,
        last msgs = Some m ->
        _last_seen self' = <["last" := text m]> (_last_seen self))
  /\ (forall (i : nat) (t : string),
        (text <$> msgs) !! i = Some t -> (text <$> msgs) !! S i <> Some t)
  /\ (forall t : string,
        _last_seen self !! "last" = Some t -> head (text <$> msgs) <> Some t)
  /\ _simulation_mode self' = _simulation_mode self
  /\ _read_timeout self' = _read_timeout self.
Proof.
  intros (chats & w1 & reads & _ & _ & Hr & Hf & Hsim & Hrt)%poll_new_messages_feeds.
  destruct (feed_spec reads (_last_seen self) []) as [Htexts _].
  pose proof (feed_cache reads (_last_seen self) []) as Hcache.
  cbv zeta in Hcache. rewrite Hf in *. simpl in *.
  split; [|split; [|split; [|split; [|done]]]].
  - intros ->. destruct Hcache as [[_ ?]|(m & _ & _ & Hlen)]; [done|].
    simpl in Hlen. lia.
  - intros m Hm. destruct Hcache as [[-> _]|(m' & Hm' & -> & _)]; [done|].
    rewrite Hm in Hm'. by injection Hm' as ->.
  - intros i t. rewrite Htexts. apply drop_repeats_no_repeat.
  - intros t Ht. rewrite Htexts, Ht.
    by destruct (drop_repeats_neighbours (fst <$> reads) (Some t)) as [?| ->].
Qed.

(** X10: how many messages a cycle can return, and when it raises.  When
    the probe for an unread chat times out the cycle still returns, with
    at most one message (that of the active chat); when the probe succeeds
    and [n] rows are counted it returns at most [n + 1] messages; and an
    error of the probe other than a timeout ends the cycle with that
    error, the service being as it was. *)
Theorem poll_message_count (self : ChatService) (w : World) :
  (forall (msg : string) (w1 : World),
     wait_for_selector page UNREAD_CHAT_SELECTOR 2000 w
       = (Raise (PlaywrightTimeoutError msg), w1) ->
     exists (msgs : list ChatMessage) (st : ChatService * World),
       poll_new_messages page self w = (Ok msgs, st) /\ length msgs <= 1)
  /\ (forall (w1 : World) (n : nat),
        wait_for_selector page UNREAD_CHAT_SELECTOR 2000 w = (Ok tt, w1) ->
        count page (PageLocator UNREAD_CHAT_SELECTOR) w1 = Ok n ->
        exists (msgs : list ChatMessage) (st : ChatService * World),
          poll_new_messages page self w = (Ok msgs, st)
          /\ length msgs <= n + 1)
  /\ (forall (e : exn) (w1 : World),
        wait_for_selector page UNREAD_CHAT_SELECTOR 2000 w = (Raise e, w1) ->
        is_timeout e = false ->
        poll_new_messages page self w = (Raise e, (self, w1))).
Proof.
  assert (forall chats w1,
            _collect_unread_chats page w = (Ok chats, w1) ->
            exists msgs st,
              poll_new_messages page self w = (Ok msgs, st)
              /\ length msgs <= length chats + 1) as Hgen.
  { intros chats w1 Hc.
    destruct (poll_new_messages_returns self w w1 chats Hc)
      as (msgs & [self' w'] & Hpoll).
    exists msgs, (self', w'). split; [done|].
    destruct (poll_new_messages_feeds _ _ _ _ _ Hpoll)
      as (chats' & w1' & reads & Hc' & Hlen & _ & Hf & _).
    rewrite Hc in Hc'. injection Hc' as <- <-.
    pose proof (feed_length reads (_last_seen self) []) as Hl.
    rewrite Hf in Hl. simpl in Hl. lia. }
  split; [|split].
  - intros msg w1 Hw. by apply (Hgen [] w1), collect_unread_chats_timeout with msg.
  - intros w1 n Hw Hn.
    destruct (Hgen _ w1 (collect_unread_chats_found _ _ _ Hw Hn))
      as (msgs & st & Hp & Hl).
    exists msgs, st. split; [done|]. by rewrite length_fmap, length_seq in Hl.
  - intros e w1 Hw He. unfold poll_new_messages, _collect_unread_chats,
      try_except, bind. by rewrite Hw, He.
Qed.

End WithPage.

Lemma poll_messages_bare_witness :
  Forall (fun m => 1 < String.length (text m) /\ strip (text m) = text m
                   /\ chat_name m = "" /\ sender m = None)
    [ChatMessage_new "/bot hola" false].
Proof.
  apply (poll_messages_bare Demo.demo_page (ChatService_init false)
           {| _simulation_mode := false; _read_timeout := 1000;
              _last_seen := {[ "last" := "/bot hola" ]} |} 0 1).
  reflexivity.
Defined.

Lemma poll_cache_follows_messages_witness :
  exists m : ChatMessage,
    last [ChatMessage_new "/bot hola" false] = Some m
    /\ ({[ "last" := "/bot hola" ]} : gmap string string)
       = <["last" := text m]> ∅.
Proof.
  assert (poll_new_messages Demo.demo_page (ChatService_init false) 0
          = (Ok [ChatMessage_new "/bot hola" false],
             ({| _simulation_mode := false; _read_timeout := 1000;
                 _last_seen := {[ "last" := "/bot hola" ]} |}, 1))) as Hpoll
    by reflexivity.
  destruct (poll_cache_follows_messages Demo.demo_page _ _ _ _ _ Hpoll)
    as (_ & Hlast & _).
  exists (ChatMessage_new "/bot hola" false). split; [reflexivity|].
  apply Hlast. reflexivity.
Defined.

End ScanExtras.

(** ** More on the login wait *)

Module SessionExtras.
Import Session SessionFacts.

Section WithPage.
Context {World : Type} (page : Page World) (self : SessionManager).

(** X11: with a login timeout of zero or less, [ensure_session] fails at
    once: it raises the timed-out error with a poll count of 0 right after
    bringing the page to front, without probing for the marker, so also
    when the session is already logged in. *)
Theorem ensure_session_no_time (w w1 : World) (fuel : nat) :
  bring_to_front page w = (Ok tt, w1) ->
  (_login_timeout self <= 0)%Z ->
  ensure_session page (S fuel) self w
  = Some (Raise (RuntimeError (LoginTimedOut 0 (_login_timeout self))), w1).
Proof.
  intros Hfront Hlt. unfold ensure_session, _wait_for_login. rewrite Hfront.
  cbn [wait_for_login_loop].
  by destruct (Z.ltb_spec (time page w1) (time page w1 + _login_timeout self));
    [lia|].
Qed.


(** X13: an error of the marker probe that is no timeout is not taken for
    "not logged in": raised by the first poll, it ends [ensure_session]
    with that very error, before any probe of the QR code or sleep. *)
Theorem ensure_session_probe_error (w w1 w2 : World) (e : exn) (fuel : nat) :
  bring_to_front page w = (Ok tt, w1) ->
  (0 < _login_timeout self)%Z ->
  wait_for_selector page CHAT_LIST_READY_SELECTOR 3000 w1 = (Raise e, w2) ->
  is_timeout e = false ->
  ensure_session page (S fuel) self w = Some (Raise e, w2).
Proof.
  intros Hfront Hlt Hm He. unfold ensure_session, _wait_for_login.
  rewrite Hfront. cbn [wait_for_login_loop].
  destruct (Z.ltb_spec (time page w1) (time page w1 + _login_timeout self));
    [|lia].
  unfold is_logged_in, try_except, bind. by rewrite Hm, He.
Qed.

End WithPage.

Lemma ensure_session_no_time_witness :
  ensure_session Demo.demo_page 1
    {| _poll_interval := 2000; _login_timeout := 0 |} 0
  = Some (Raise (RuntimeError (LoginTimedOut 0 0)), 0).
Proof.
  apply (ensure_session_no_time Demo.demo_page
           {| _poll_interval := 2000; _login_timeout := 0 |} 0 0 0);
    [reflexivity|simpl; lia].
Defined.


Lemma ensure_session_probe_error_witness :
  ensure_session Fakes.closed_page 1 SessionManager_init tt
  = Some (Raise (PlaywrightError "Target closed"), tt).
Proof.
  apply (ensure_session_probe_error Fakes.closed_page SessionManager_init
           tt tt tt (PlaywrightError "Target closed") 0); try reflexivity.
Defined.

End SessionExtras.

(** ** The browser manager *)

Module BrowserExtras.
Import Browser.

Section WithDriver.
Context {World Path : Type} (driver : Driver World Path).

(** [_start] leaves the settings of the manager alone, whether it raises
    or not. *)
Lemma start_keeps_settings (self self' : BrowserManager Path) (w w' : World)
    (r : outcome unit) :
  _start driver (self, w) = (r, (self', w')) ->
  _session_path self' = _session_path self
  /\ _headless self' = _headless self /\ _slow_mo self' = _slow_mo self.
Proof.
  unfold _start.
  destruct (playwright_start driver w) as [[pw|?] w1]; [|by intros [= _ <- _]].
  destruct (chromium_launch driver pw _ _ w1) as [[br|?] w2];
    [|by intros [= _ <- _]].
  destruct (match _session_path self with
            | Some p => match path_exists driver p w2 with
                        | Ok true => Ok (Some (path_str driver p))
                        | Ok false => Ok None
                        | Raise e => Raise e
                        end
            | None => Ok None
            end) as [state|?]; [|by intros [= _ <- _]].
  destruct (new_context driver br state w2) as [[ctx|?] w3];
    [|by intros [= _ <- _]].
  destruct (new_page driver ctx w3) as [[pg|?] w4]; by intros [= _ <- _].
Qed.

(** X14: [close] runs its three steps whatever they do.  The context, the
    browser and the driver that are set are closed in this order, each
    from the state the step before left, also when a step raised; [close]
    then raises what the last failing step raised, and returns normally
    only when none failed. *)
Theorem close_runs_every_step (self : BrowserManager Path) (w : World) :
  let r1 := when_set (context self) (context_close driver) w in
  let r2 := when_set (browser self) (browser_close driver) r1.2 in
  let r3 := when_set (_playwright self) (playwright_stop driver) r2.2 in
  (close driver self w).2 = r3.2
  /\ (close driver self w).1
     = match r3.1, r2.1 with
       | Raise e, _ => Raise e
       | Ok _, Raise e => Raise e
       | Ok _, Ok _ => r1.1
       end.
Proof.
  cbv zeta. unfold close, try_finally.
  destruct (when_set (context self) (context_close driver) w) as [r1 w1].
  simpl. destruct (when_set (browser self) (browser_close driver) w1)
    as [[[]|e2] w2]; simpl;
    by destruct (when_set (_playwright self) (playwright_stop driver) w2)
      as [[[]|e3] w3].
Qed.

(** X15: after a [_start] that did not raise, the driver, the browser, the
    context and the page are all set and the settings are as before; so
    [goto_whatsapp] does not fail for want of a page but navigates to the
    application and returns the page. *)
Theorem start_sets_everything (self self' : BrowserManager Path) (w w' : World) :
  _start driver (self, w) = (Ok tt, (self', w')) ->
  is_Some (_playwright self') /\ is_Some (browser self')
  /\ is_Some (context self')
  /\ _session_path self' = _session_path self
  /\ exists pg : handle,
       page self' = Some pg
       /\ forall w0 : World,
            goto_whatsapp driver self' w0
            = match goto driver pg WAPP_URL w0 with
              | (Ok _, w1) => (Ok pg, w1)
              | (Raise e, w1) => (Raise e, w1)
              end.
Proof.
  intros H. destruct (start_keeps_settings _ _ _ _ _ H) as (Hp & _ & _).
  unfold _start in H.
  destruct (playwright_start driver w) as [[pw|?] w1]; [|done].
  destruct (chromium_launch driver pw _ _ w1) as [[br|?] w2]; [|done].
  destruct (match _session_path self with
            | Some p => match path_exists driver p w2 with
                        | Ok true => Ok (Some (path_str driver p))
                        | Ok false => Ok None
                        | Raise e => Raise e
                        end
            | None => Ok None
            end) as [state|?]; [|done].
  destruct (new_context driver br state w2) as [[ctx|?] w3]; [|done].
  destruct (new_page driver ctx w3) as [[pg|?] w4]; [|done].
  injection H as <- <-. simpl. split_and!; [by eexists..|done|].
  exists pg. split; [done|]. intros w0. unfold goto_whatsapp, bind, ret. simpl.
  by destruct (goto driver pg WAPP_URL w0) as [[[]|?] ?].
Qed.

(** X16: without a session path nothing is ever saved.  A manager built
    with no path, or with the empty string for a path, has none, keeps
    having none through [_start] (raising or not), and its
    [save_storage_state] then returns without touching anything.  And
    before [_start] a manager has no page: [goto_whatsapp] raises
    [RuntimeError] and [close] does nothing. *)
Theorem no_session_path_no_save (session_path : option string)
    (headless : bool) (slow_mo : Z) :
  let fresh := BrowserManager_init driver session_path headless slow_mo in
  (forall w : World,
     goto_whatsapp driver fresh w
     = (Raise (RuntimeError (Literal "Browser page not initialized")), w)
     /\ close driver fresh w = (Ok tt, w)
     /\ save_storage_state driver fresh w = (Ok tt, w))
  /\ (session_path = None \/ session_path = Some "" ->
      forall (w w' w0 : World) (r : outcome unit) (self' : BrowserManager Path),
        _start driver (fresh, w) = (r, (self', w')) ->
        save_storage_state driver self' w0 = (Ok tt, w0)).
Proof.
  cbv zeta. split; [done|].
  intros Hnone w w' w0 r self' Hs.
  destruct (start_keeps_settings _ _ _ _ _ Hs) as (Hp & _ & _).
  unfold save_storage_state. rewrite Hp.
  destruct Hnone as [->| ->]; simpl; by destruct (context self').
Qed.

(** [with] closes after a body that ended, and passes on what [_start]
    raised without closing anything. *)
Lemma with_browser_spec {A : Type} (self : BrowserManager Path)
    (body : BrowserManager Path -> World -> option (outcome A * World))
    (w : World) :
  match _start driver (self, w) with
  | (Raise e, st) => with_browser driver self body w = Some (Raise e, st)
  | (Ok _, (started, w1)) =>
      match body started w1 with
      | None => with_browser driver self body w = None
      | Some (r, w2) =>
          with_browser driver self body w
          = Some (match (close driver started w2).1 with
                  | Ok _ => r
                  | Raise e => Raise e
                  end, (started, (close driver started w2).2))
      end
  end.
Proof.
  unfold with_browser.
  destruct (_start driver (self, w)) as [[[]|e] [started w1]]; [|done].
  destruct (body started w1) as [[r w2]|]; [|done].
  by destruct (close driver started w2) as [[[]|e] w3].
Qed.

End WithDriver.

Lemma start_sets_everything_witness :
  is_Some (Some (Handle 0)) /\ is_Some (Some (Handle 1))
  /\ is_Some (Some (Handle 2))
  /\ Some "session.json" = Some "session.json"
  /\ exists pg : handle,
       Some (Handle 3) = Some pg
       /\ forall w0 : Z,
            goto_whatsapp (Fakes.quick_driver (World := Z))
              {| _session_path := Some "session.json"; _headless := false;
                 _slow_mo := 0; _playwright := Some (Handle 0);
                 browser := Some (Handle 1); context := Some (Handle 2);
                 page := Some (Handle 3) |} w0
            = match goto (Fakes.quick_driver (World := Z)) pg WAPP_URL w0 with
              | (Ok _, w1) => (Ok pg, w1)
              | (Raise e, w1) => (Raise e, w1)
              end.
Proof.
  apply (start_sets_everything (Fakes.quick_driver (World := Z))
           (BrowserManager_init (Fakes.quick_driver (World := Z))
              (Some "session.json") false 0)
           {| _session_path := Some "session.json"; _headless := false;
              _slow_mo := 0; _playwright := Some (Handle 0);
              browser := Some (Handle 1); context := Some (Handle 2);
              page := Some (Handle 3) |} 0%Z 0%Z).
  reflexivity.
Defined.

End BrowserExtras.

(** ** The loop of the bot *)

Module BotExtras.
Import PyStr PyStrFacts PyStrMore Texts Chat Sender Browser Bot.

(** X17: [_to_bool] looks at neither the case of the letters nor at
    blanks around the value: two values whose lower-cased forms agree,
    one of them padded with blanks, are read alike. *)
Theorem to_bool_ignores_case_and_padding (lead s trail s' : string) :
  all_blank lead = true -> all_blank trail = true -> lower s = lower s' ->
  _to_bool (lead +:+ s +:+ trail) = _to_bool s'.
Proof.
  intros Hl Ht Hs. unfold _to_bool.
  rewrite (strip_padded lead s trail Hl Ht).
  by rewrite <- !strip_lower, Hs.
Qed.

Lemma to_bool_ignores_case_and_padding_witness :
  _to_bool (" " +:+ "TRUE" +:+ nl) = _to_bool "true".
Proof.
  apply (to_bool_ignores_case_and_padding " " "TRUE" nl "true"); reflexivity.
Defined.

Section WithWorld.
Context {World Element : Type}.
Context (page : Page World) (editor : Editor World Element).
Context (generate_content :
           string -> string -> string -> World -> Main.completion * World).

(** The AI path always has something to say. *)
Lemma call_ai_reply (ai_client : option string) (q : string) (w : World) :
  exists (reply : string) (w1 : World),
    Main.call_ai generate_content ai_client q w = (Ok reply, w1) /\ reply <> "".
Proof.
  unfold Main.call_ai. destruct ai_client as [client|]; [|by eexists _, _].
  destruct (generate_content client _ q w) as [[[t|]|err] w1].
  - eexists _, _. split; [done|]. by destruct t.
  - by eexists _, _.
  - destruct (contains "429" err); eexists _, _; (split; [done|]).
    + intros H. vm_compute in H. discriminate H.
    + unfold Main.generic_error_reply. by rewrite app_cons.
Qed.

(** The two shapes of a parsed message. *)
Lemma parse_shape (mf : Filters.MessageFilter) (m : ChatMessage)
    (pm : Filters.ParsedMessage) :
  Filters.parse mf m = Ok (Some pm) ->
  (Filters.is_command pm = true /\ is_Some (Filters.command pm))
  \/ (Filters.is_command pm = false /\ Filters.command pm = None).
Proof.
  rewrite FiltersFacts.parse_parse_reference.
  destruct (Filters.parse_reference _ _) as [[n a|q]|]; simpl; [| |done];
    intros [= <-]; simpl; [left|right]; by eauto.
Qed.

(** X18: every message addressed to the bot is answered once, and never
    with nothing.  With the handler of [run_bot], a message [parse]
    ignores changes nothing; a command is answered by [handle] alone, the
    AI backend playing no part; a query is answered by [call_ai]; and in
    both cases the reply is not empty, so the test [if response] never
    holds back the one call of [send_message] that follows. *)
Theorem respond_answers_once (mf : Filters.MessageFilter) (prefix : string)
    (ai_client : option string) (cs : ChatService) (m : ChatMessage)
    (w : World) :
  let handler := Handlers.CommandHandler_init prefix in
  let sent (reply : string) (w1 : World) : outcome unit * World :=
    match send_message editor cs reply w1 with
    | (Ok _, w2) => (Ok tt, w2)
    | (Raise e, w2) => (Raise e, w2)
    end in
  match Filters.parse mf m with
  | Raise _ => False
  | Ok None =>
      respond editor generate_content mf handler ai_client cs m w = (Ok tt, w)
  | Ok (Some pm) =>
      exists (reply : string) (w1 : World),
        reply <> ""
        /\ match Filters.command pm with
           | Some cmd => Handlers.handle handler cmd = Ok reply /\ w1 = w
           | None =>
               Main.call_ai generate_content ai_client
                 (default "" (Filters.query pm)) w = (Ok reply, w1)
           end
        /\ respond editor generate_content mf handler ai_client cs m w
           = sent reply w1
  end.
Proof.
  cbv zeta. unfold respond.
  destruct (Filters.parse mf m) as [[pm|]|e] eqn:Hparse; [|done|].
  - destruct (parse_shape mf m pm Hparse) as [[-> [cmd ->]]|[-> ->]].
    + destruct (HandlerExtras.handle_never_raises
                  (Handlers.CommandHandler_init prefix) cmd) as [reply Hr].
      exists reply, w. pose proof (HandlerExtras.handle_default_nonempty _ _ _ Hr).
      split; [done|]. split; [done|]. rewrite Hr.
      destruct reply; [done|]. simpl. unfold bind, ret.
      by destruct (send_message editor cs _ w) as [[?|?] ?].
    + destruct (call_ai_reply ai_client (default "" (Filters.query pm)) w)
        as (reply & w1 & Hr & Hne).
      exists reply, w1. split; [done|]. split; [done|]. rewrite Hr.
      destruct reply; [done|]. simpl. unfold bind, ret.
      by destruct (send_message editor cs _ w1) as [[?|?] ?].
  - by rewrite FiltersFacts.parse_parse_reference in Hparse.
Qed.




End WithWorld.


End BotExtras.

(** ** The whole of [run_bot] *)

Module RunBotExtras.
Import Chat Sender Browser Bot BrowserExtras.

Section WithWorld.
Context {World Element Path : Type}.
Context (page : Page World) (editor : Editor World Element)
        (driver : Driver World Path).
Context (generate_content :
           string -> string -> string -> World -> Main.completion * World).

#[local] Abbreviation body := (run_bot_body page editor driver generate_content).
#[local] Abbreviation bot := (run_bot page editor driver generate_content).
#[local] Abbreviation fresh config :=
  (BrowserManager_init driver (session_path config) false 0).
#[local] Abbreviation closed_after := (Bot.closed_after driver).


Lemma run_bot_body_raised (login_fuel loop_fuel : nat) (config : BotConfig)
    (w : World) (started : BrowserManager Path) (w1 w2 : World) (e : exn) :
  _start driver (fresh config, w) = (Ok tt, (started, w1)) ->
  body login_fuel loop_fuel config started w1 = Some (Raise e, w2) ->
  bot login_fuel loop_fuel config w = Some (closed_after started e w2).
Proof.
  intros Hs Hb. unfold run_bot, closed_after.
  pose proof (with_browser_spec driver (fresh config)
                (body login_fuel loop_fuel config) w) as Hw.
  rewrite Hs, Hb in Hw. rewrite Hw.
  by destruct (close driver started w2) as [[[]|?] ?].
Qed.


(** X21: when the login fails, the session is not saved and the browser is
    closed all the same: from the state in which [ensure_session] raised,
    [run_bot] goes straight to [close] and then raises the error of the
    login (or what [close] raised). *)
Theorem run_bot_failed_login (login_fuel loop_fuel : nat) (config : BotConfig)
    (w : World) (started : BrowserManager Path) (w1 w2 w3 : World)
    (pg : handle) (e : exn) :
  _start driver (fresh config, w) = (Ok tt, (started, w1)) ->
  goto_whatsapp driver started w1 = (Ok pg, w2) ->
  Session.ensure_session page login_fuel Session.SessionManager_init w2
    = Some (Raise e, w3) ->
  bot login_fuel loop_fuel config w = Some (closed_after started e w3).
Proof.
  intros Hs Hg He. apply (run_bot_body_raised _ _ _ _ _ _ _ _ Hs).
  unfold run_bot_body. by rewrite Hg, He.
Qed.

(** X22: an empty command prefix is found out late.  [run_bot] first
    starts the browser, opens the application, waits for the login and
    saves the session; only then does building the filter raise the
    [ValueError], after which the browser is closed. *)
Theorem run_bot_empty_prefix (login_fuel loop_fuel : nat) (config : BotConfig)
    (w : World) (started : BrowserManager Path) (w1 w2 w3 w4 : World)
    (pg : handle) :
  command_prefix config = "" ->
  _start driver (fresh config, w) = (Ok tt, (started, w1)) ->
  goto_whatsapp driver started w1 = (Ok pg, w2) ->
  Session.ensure_session page login_fuel Session.SessionManager_init w2
    = Some (Ok tt, w3) ->
  save_storage_state driver started w3 = (Ok tt, w4) ->
  bot login_fuel loop_fuel config w
  = Some (closed_after started
            (ValueError "Command prefix must not be empty") w4).
Proof.
  intros Hp Hs Hg He Hsave. apply (run_bot_body_raised _ _ _ _ _ _ _ _ Hs).
  unfold run_bot_body. by rewrite Hg, He, Hsave, Hp.
Qed.


End WithWorld.


Lemma run_bot_failed_login_witness :
  run_bot Demo.clock_page Fakes.blind_editor Fakes.quick_driver
    Fakes.busy_backend 25 1
    {| command_prefix := "/bot"; session_path := Some "s.json";
       log_level := "INFO"; simulation_mode := false;
       google_api_key := Some "key"; poll_interval := 2000 |} 0%Z
  = Some (Raise (RuntimeError (LoginTimedOut 20 120000)),
          ({| _session_path := Some "s.json"; _headless := false;
              _slow_mo := 0; _playwright := Some (Handle 0);
              browser := Some (Handle 1); context := Some (Handle 2);
              page := Some (Handle 3) |}, 120000%Z)).
Proof.
  apply (run_bot_failed_login Demo.clock_page Fakes.blind_editor
           Fakes.quick_driver Fakes.busy_backend 25 1
           {| command_prefix := "/bot"; session_path := Some "s.json"; log_level := "INFO"; simulation_mode := false; google_api_key := Some "key"; poll_interval := 2000 |}
           0%Z
           {| _session_path := Some "s.json"; _headless := false; _slow_mo := 0; _playwright := Some (Handle 0); browser := Some (Handle 1); context := Some (Handle 2); page := Some (Handle 3) |}
           0%Z 0%Z 120000%Z
           (Handle 3) (RuntimeError (LoginTimedOut 20 120000)));
    reflexivity.
Defined.

Lemma run_bot_empty_prefix_witness :
  run_bot Demo.demo_page Fakes.blind_editor Fakes.quick_driver
    Fakes.busy_backend 1 1
    {| command_prefix := ""; session_path := Some "s.json";
       log_level := "INFO"; simulation_mode := false;
       google_api_key := None; poll_interval := 2000 |} 0
  = Some (Raise (ValueError "Command prefix must not be empty"),
          ({| _session_path := Some "s.json"; _headless := false;
              _slow_mo := 0; _playwright := Some (Handle 0);
              browser := Some (Handle 1); context := Some (Handle 2);
              page := Some (Handle 3) |}, 0)).
Proof.
  apply (run_bot_empty_prefix Demo.demo_page Fakes.blind_editor
           Fakes.quick_driver Fakes.busy_backend 1 1
           {| command_prefix := ""; session_path := Some "s.json"; log_level := "INFO"; simulation_mode := false; google_api_key := None; poll_interval := 2000 |}
           0
           {| _session_path := Some "s.json"; _headless := false; _slow_mo := 0; _playwright := Some (Handle 0); browser := Some (Handle 1); context := Some (Handle 2); page := Some (Handle 3) |}
           0 0 0 0 (Handle 3));
    reflexivity.
Defined.


End RunBotExtras.
